(** * ofxAudioUnit: the sampler node, the ring buffer and the output node

    A shallow embedding of [src/ofxAudioUnit.h] and
    [src/ofxAudioUnitSampler.cpp].  The platform audio engine (Core Audio) is
    an explicit state that the wrapper classes thread through their calls;
    every call into it is appended to a trace, so that what a method
    forwards to the engine can be read back. *)

From Stdlib Require Import ZArith List Lia Bool.
From stdpp Require Import base option gmap list strings.

Open Scope Z_scope.

(** ** Machine integers and indeterminate storage *)

(** [UInt32] is kept as a [Z] together with its range. *)
Definition is_UInt32 (z : Z) : Prop := 0 <= z < 2 ^ 32.

(** A scalar data member that no constructor has written holds an
    indeterminate value; an expression computed from it is indeterminate. *)
Inductive cell (A : Type) : Type :=
| Indeterminate : cell A
| Determinate (a : A) : cell A.
Arguments Indeterminate {A}.
Arguments Determinate {A} a.

Definition cell_map {A B : Type} (f : A -> B) (c : cell A) : cell B :=
  match c with
  | Indeterminate => Indeterminate
  | Determinate a => Determinate (f a)
  end.

Definition OSStatus : Type := Z.
Definition noErr : OSStatus := 0.

(** ** The platform engine *)

Record AudioComponentDescription : Type := mkDesc {
  componentType : Z;
  componentSubType : Z;
  componentManufacturer : Z;
  componentFlags : Z;
  componentFlagsMask : Z
}.

(** Four-character codes of the platform SDK. *)
Definition fourcc (a b c d : Z) : Z :=
  Z.lor (Z.shiftl a 24) (Z.lor (Z.shiftl b 16) (Z.lor (Z.shiftl c 8) d)).

Definition kAudioUnitType_MusicDevice : Z := fourcc 97 117 109 117.   (* 'aumu' *)
Definition kAudioUnitSubType_Sampler : Z := fourcc 115 97 109 112.    (* 'samp' *)
Definition kAudioUnitSubType_DLSSynth : Z := fourcc 100 108 115 32.   (* 'dls ' *)
Definition kAudioUnitManufacturer_Apple : Z := fourcc 97 112 112 108. (* 'appl' *)

(** An underlying unit instance is named by the heap cell [AudioUnitRef]
    points to. *)
Definition UnitId : Type := nat.

(** [AudioUnitRef] is a reference-counted pointer; [None] is the empty one. *)
Definition AudioUnitRef : Type := option UnitId.

(** A render callback registered on an input bus: the producing unit and
    its output bus. *)
Record RenderSource : Type := mkSource {
  src_unit : UnitId;
  src_bus : Z
}.

Record UnitState : Type := mkUnit {
  u_desc : AudioComponentDescription;
  u_use_count : nat;                 (* owners of the reference *)
  u_running : bool;
  u_files : list string;             (* kAUSamplerProperty_LoadAudioFiles *)
  u_input_buses : Z;
  u_callbacks : gmap Z RenderSource  (* destination bus -> producer *)
}.

(** Calls that reach the engine, in the order they are made. *)
Inductive EngineCall : Type :=
| CallInstanceNew (u : UnitId) (d : AudioComponentDescription)
| CallDispose (u : UnitId)
| CallLoadAudioFiles (u : UnitId) (paths : list string)
| CallMIDIEvent (u : UnitId) (status : cell Z) (data1 data2 offset : Z)
| CallOutputStart (u : UnitId)
| CallOutputStop (u : UnitId).

Record Engine : Type := mkEngine {
  resolves : AudioComponentDescription -> bool; (* installed components *)
  decodes : string -> bool;                     (* readable sample files *)
  next_unit : UnitId;
  units : gmap UnitId UnitState;
  trace : list EngineCall;
  diagnostics : list (string * OSStatus)        (* printed by OFXAU_PRINT *)
}.

Definition with_units (e : Engine) (m : gmap UnitId UnitState) : Engine :=
  mkEngine (resolves e) (decodes e) (next_unit e) m (trace e) (diagnostics e).

Definition log_call (e : Engine) (c : EngineCall) : Engine :=
  mkEngine (resolves e) (decodes e) (next_unit e) (units e)
           (trace e ++ [c]) (diagnostics e).

(** Modelled from the spec: the [OFXAU_PRINT(status, stage)] macro, which
    the header takes from [ofxAudioUnitUtils.h].  A failure is reported as
    a printed diagnostic naming the stage; the macro does not leave the
    calling function. *)
Definition OFXAU_PRINT (s : OSStatus) (stage : string) (e : Engine) : Engine :=
  if decide (s = noErr) then e
  else mkEngine (resolves e) (decodes e) (next_unit e) (units e) (trace e)
                (diagnostics e ++ [(stage, s)]).

(** [MusicDeviceMIDIEvent(unit, status, data1, data2, offset)]. *)
Definition MusicDeviceMIDIEvent (u : UnitId) (status : cell Z)
    (data1 data2 offset : Z) (e : Engine) : Engine :=
  log_call e (CallMIDIEvent u status data1 data2 offset).

(** *** Reference counting of [AudioUnitRef] *)

Definition set_use_count (s : UnitState) (n : nat) : UnitState :=
  mkUnit (u_desc s) n (u_running s) (u_files s) (u_input_buses s) (u_callbacks s).

(** Copying a reference adds an owner. *)
Definition retain (r : AudioUnitRef) (e : Engine) : Engine :=
  match r with
  | None => e
  | Some u =>
      with_units e (alter (fun s => set_use_count s (S (u_use_count s))) u (units e))
  end.

(** Modelled from the spec: [AudioUnitDeleter], declared in the header and
    defined elsewhere.  The unit is deleted through this custom disposal
    routine when its last owner lets go of it. *)
Definition AudioUnitDeleter (u : UnitId) (e : Engine) : Engine :=
  log_call (with_units e (delete u (units e))) (CallDispose u).

(** Dropping a reference removes an owner; the last one disposes. *)
Definition release (r : AudioUnitRef) (e : Engine) : Engine :=
  match r with
  | None => e
  | Some u =>
      match units e !! u with
      | None => e
      | Some s =>
          match u_use_count s with
          | S (S n) => with_units e (<[u := set_use_count s (S n)]> (units e))
          | _ => AudioUnitDeleter u e
          end
      end
  end.

(** [lhs = rhs] on two references: the new unit gains an owner, then the
    old one loses one. *)
Definition ofPtr_assign (lhs rhs : AudioUnitRef) (e : Engine) : Engine :=
  release lhs (retain rhs e).

(** ** [class ofxAudioUnit] *)

Record ofxAudioUnit : Type := mkNode {
  _unit : AudioUnitRef;
  _desc : AudioComponentDescription
}.

(** [ofxAudioUnit(){}]: the reference member starts empty, the descriptor
    is left as the storage had it. *)
Definition ofxAudioUnit_ctor (storage : ofxAudioUnit) : ofxAudioUnit :=
  mkNode None (_desc storage).

(** Input buses a unit has when the engine has just created it (a
    property of the platform's unit; one bus is assumed). *)
Definition initial_input_buses : Z := 1.

(** Modelled from the spec: [ofxAudioUnit::initUnit], declared in the header
    and defined elsewhere.  It instantiates the underlying unit named by
    [_desc] through the engine; when the engine cannot resolve the
    descriptor the node is left as it was, without a usable unit. *)
Definition initUnit (this : ofxAudioUnit) (e : Engine) : ofxAudioUnit * Engine :=
  if resolves e (_desc this) then
    let u := next_unit e in
    let e1 := release (_unit this) e in
    let fresh := mkUnit (_desc this) 1 false [] initial_input_buses ∅ in
    (mkNode (Some u) (_desc this),
     mkEngine (resolves e1) (decodes e1) (S u) (<[u := fresh]> (units e1))
              (trace e1 ++ [CallInstanceNew u (_desc this)]) (diagnostics e1))
  else (this, e).

(** ** [class ofxAudioUnitSampler : public ofxAudioUnit] *)

Record ofxAudioUnitSampler : Type := mkSampler {
  base : ofxAudioUnit;
  midiChannelInUse : cell Z
}.

Definition kMidiMessage_ControlChange : Z := 0xB.
Definition kMidiMessage_ProgramChange : Z := 0xC.
Definition kMidiMessage_BankMSBControl : Z := 0.
Definition kMidiMessage_BankLSBControl : Z := 32.
Definition kMidiMessage_NoteOn : Z := 0x9.
Definition kMidiMessage_NoteOff : Z := 0x8.

Definition samplerDesc : AudioComponentDescription :=
  mkDesc kAudioUnitType_MusicDevice kAudioUnitSubType_Sampler
         kAudioUnitManufacturer_Apple 0 0.

(** A constructor runs on the storage the object is created in; the
    members it does not write keep what the storage held. *)

(** [ofxAudioUnitSampler::ofxAudioUnitSampler()] *)
Definition Sampler_ctor (storage : ofxAudioUnitSampler) (e : Engine)
    : ofxAudioUnitSampler * Engine :=
  let b := ofxAudioUnit_ctor (base storage) in
  let b := mkNode (_unit b) samplerDesc in
  let '(b, e) := initUnit b e in
  (mkSampler b (midiChannelInUse storage), e).

(** [ofxAudioUnitSampler::ofxAudioUnitSampler(type, subType, manufacturer)] *)
Definition Sampler_ctor_type (storage : ofxAudioUnitSampler)
    (type subType manufacturer : Z) (e : Engine)
    : ofxAudioUnitSampler * Engine :=
  let b := ofxAudioUnit_ctor (base storage) in
  let b := mkNode (_unit b) (mkDesc type subType manufacturer 0 0) in
  let '(b, e) := initUnit b e in
  (mkSampler b (midiChannelInUse storage), e).

(** [ofxAudioUnitSampler::ofxAudioUnitSampler(const ofxAudioUnitSampler &orig)] *)
Definition Sampler_ctor_copy (storage : ofxAudioUnitSampler)
    (orig : ofxAudioUnitSampler) (e : Engine)
    : ofxAudioUnitSampler * Engine :=
  let b := ofxAudioUnit_ctor (base storage) in
  let b := mkNode (_unit b) (_desc (base orig)) in
  let '(b, e) := initUnit b e in
  (mkSampler b (midiChannelInUse storage), e).

(** Objects live at addresses; assignment compares [this] with [&orig]. *)
Definition Addr : Type := nat.

(** [ofxAudioUnitSampler::operator=] *)
Definition Sampler_assign (this orig : Addr)
    (h : gmap Addr ofxAudioUnitSampler) (e : Engine)
    : option (gmap Addr ofxAudioUnitSampler * Engine) :=
  t ← h !! this;
  o ← h !! orig;
  if decide (this = orig) then Some (h, e)
  else
    let b := mkNode (_unit (base t)) (_desc (base o)) in
    let e := ofPtr_assign (_unit b) (_unit (base o)) e in
    let b := mkNode (_unit (base o)) (_desc b) in
    Some (<[this := mkSampler b (midiChannelInUse t)]> h, e).

(** [void setChannel(const UInt32 chan) { midiChannelInUse = chan; }] *)
Definition setChannel (this : ofxAudioUnitSampler) (chan : Z) : ofxAudioUnitSampler :=
  mkSampler (base this) (Determinate chan).

(** [command << 4 | midiChannelInUse] *)
Definition channel_status (command : Z) (chan : cell Z) : cell Z :=
  cell_map (fun c => Z.lor (Z.shiftl command 4) c) chan.

(** The methods below dereference [_unit]; on an empty reference the call
    has no defined outcome, which is [None] here. *)

(** [ofxAudioUnitSampler::midiEvent] *)
Definition midiEvent (this : ofxAudioUnitSampler) (status data1 data2 : Z)
    (e : Engine) : option Engine :=
  u ← _unit (base this);
  Some (MusicDeviceMIDIEvent u (Determinate status) data1 data2 0 e).

(** [ofxAudioUnitSampler::setBank] *)
Definition setBank (this : ofxAudioUnitSampler) (msb lsb : Z) (e : Engine)
    : option Engine :=
  u ← _unit (base this);
  let e := MusicDeviceMIDIEvent u
             (channel_status kMidiMessage_ControlChange (midiChannelInUse this))
             kMidiMessage_BankMSBControl msb 0 e in
  Some (MusicDeviceMIDIEvent u
          (channel_status kMidiMessage_ControlChange (midiChannelInUse this))
          kMidiMessage_BankLSBControl lsb 0 e).

(** [ofxAudioUnitSampler::setProgram] *)
Definition setProgram (this : ofxAudioUnitSampler) (prog : Z) (e : Engine)
    : option Engine :=
  u ← _unit (base this);
  Some (MusicDeviceMIDIEvent u
          (channel_status kMidiMessage_ProgramChange (midiChannelInUse this))
          prog 0 0 e).

(** [ofxAudioUnitSampler::midiNoteOn] *)
Definition midiNoteOn (this : ofxAudioUnitSampler) (note vel : Z) (e : Engine)
    : option Engine :=
  let noteOnCommand := channel_status kMidiMessage_NoteOn (midiChannelInUse this) in
  u ← _unit (base this);
  Some (MusicDeviceMIDIEvent u noteOnCommand note vel 0 e).

(** [ofxAudioUnitSampler::midiNoteOff] *)
Definition midiNoteOff (this : ofxAudioUnitSampler) (note vel : Z) (e : Engine)
    : option Engine :=
  let noteOffCommand := channel_status kMidiMessage_NoteOff (midiChannelInUse this) in
  u ← _unit (base this);
  Some (MusicDeviceMIDIEvent u noteOffCommand note vel 0 e).

(** *** Loading samples *)

(** Status the engine answers a load of undecodable files with
    (a file-not-found code; any value other than [noErr] would do). *)
Definition fnfErr : OSStatus := -43.

Definition set_files (s : UnitState) (paths : list string) : UnitState :=
  mkUnit (u_desc s) (u_use_count s) (u_running s) paths (u_input_buses s)
         (u_callbacks s).

(** [AudioUnitSetProperty(unit, kAUSamplerProperty_LoadAudioFiles, ...)]:
    the unit takes the files when all of them decode, and answers with an
    error status and keeps its voice table otherwise. *)
Definition AudioUnitSetProperty_LoadAudioFiles (u : UnitId)
    (paths : list string) (e : Engine) : OSStatus * Engine :=
  let e := log_call e (CallLoadAudioFiles u paths) in
  if forallb (decodes e) paths
  then (noErr, with_units e (alter (fun s => set_files s paths) u (units e)))
  else (fnfErr, e).

(** The source file has two bodies for the loading methods, chosen by the
    SDK it is built against. *)
Inductive SDK : Type :=
| SDK_10_7_or_iOS_5   (* MAC_OS_X_VERSION_10_7 || __IPHONE_5_0 *)
| SDK_10_6.

(** [ofxAudioUnitSampler::setSample] *)
Definition setSample (sdk : SDK) (this : ofxAudioUnitSampler)
    (samplePath : string) (e : Engine) : option (bool * Engine) :=
  match sdk with
  | SDK_10_7_or_iOS_5 =>
      u ← _unit (base this);
      let '(s, e) := AudioUnitSetProperty_LoadAudioFiles u [samplePath] e in
      let e := OFXAU_PRINT s "setting ofxAudioUnitSampler's source sample" e in
      Some (true, e)
  | SDK_10_6 => Some (false, e)
  end.

(** [ofxAudioUnitSampler::setSamples].  The first body makes its request
    and then reaches the closing brace of a function returning [bool]
    without a [return] statement: the call has no defined outcome. *)
Definition setSamples (sdk : SDK) (this : ofxAudioUnitSampler)
    (samplePaths : list string) (e : Engine) : option (bool * Engine) :=
  match sdk with
  | SDK_10_7_or_iOS_5 =>
      u ← _unit (base this);
      let '(s, e) := AudioUnitSetProperty_LoadAudioFiles u samplePaths e in
      let e := OFXAU_PRINT s "setting ofxAudioUnitSampler's source samples" e in
      None
  | SDK_10_6 => Some (false, e)
  end.

(** *** Call sequences on one sampler *)

Inductive SamplerCall : Type :=
| DoSetChannel (chan : Z)
| DoMidiNoteOn (note vel : Z)
| DoMidiNoteOff (note vel : Z)
| DoSetBank (msb lsb : Z)
| DoSetProgram (prog : Z)
| DoMidiEvent (status data1 data2 : Z).

Definition is_setChannel (c : SamplerCall) : bool :=
  match c with DoSetChannel _ => true | _ => false end.

Definition call (c : SamplerCall) (this : ofxAudioUnitSampler) (e : Engine)
    : option (ofxAudioUnitSampler * Engine) :=
  match c with
  | DoSetChannel chan => Some (setChannel this chan, e)
  | DoMidiNoteOn note vel => e ← midiNoteOn this note vel e; Some (this, e)
  | DoMidiNoteOff note vel => e ← midiNoteOff this note vel e; Some (this, e)
  | DoSetBank msb lsb => e ← setBank this msb lsb e; Some (this, e)
  | DoSetProgram prog => e ← setProgram this prog e; Some (this, e)
  | DoMidiEvent status data1 data2 =>
      e ← midiEvent this status data1 data2 e; Some (this, e)
  end.

Fixpoint calls (cs : list SamplerCall) (this : ofxAudioUnitSampler) (e : Engine)
    : option (ofxAudioUnitSampler * Engine) :=
  match cs with
  | [] => Some (this, e)
  | c :: cs => '(this, e) ← call c this e; calls cs this e
  end.

(** ** Connections *)

Definition set_callback (s : UnitState) (bus : Z) (src : RenderSource) : UnitState :=
  mkUnit (u_desc s) (u_use_count s) (u_running s) (u_files s) (u_input_buses s)
         (<[bus := src]> (u_callbacks s)).

(** Modelled from the spec: [ofxAudioUnit::getInputBusCount], declared in
    the header and defined elsewhere: the current number of input buses of
    the underlying unit. *)
Definition getInputBusCount (this : ofxAudioUnit) (e : Engine) : option Z :=
  u ← _unit this;
  s ← units e !! u;
  Some (u_input_buses s).

(** Modelled from the spec: [ofxAudioUnit::connectTo(otherUnit,
    destinationBus, sourceBus)], declared in the header as returning [void]
    and defined elsewhere.  It registers, on [destinationBus] of
    [otherUnit], a render callback that pulls from [sourceBus] of this node;
    [destinationBus] must be below the current input-bus count of
    [otherUnit], else the call does nothing.  The producer is neither
    queried nor changed.  The [int] bus number reaches the engine as an
    unsigned 32-bit element number. *)
Definition connectTo (this otherUnit : ofxAudioUnit)
    (destinationBus sourceBus : Z) (e : Engine) : option (unit * Engine) :=
  src ← _unit this;
  dst ← _unit otherUnit;
  s ← units e !! dst;
  let bus := destinationBus mod 2 ^ 32 in
  if decide (bus < u_input_buses s)
  then Some (tt, with_units e
                   (<[dst := set_callback s bus (mkSource src sourceBus)]> (units e)))
  else Some (tt, e).

(** The callback installed on a bus of a node, if any. *)
Definition callback_on (otherUnit : ofxAudioUnit) (bus : Z) (e : Engine)
    : option RenderSource :=
  dst ← _unit otherUnit;
  s ← units e !! dst;
  u_callbacks s !! bus.

(** ** [class ofxAudioUnitOutput : public ofxAudioUnit] *)

Definition set_running (s : UnitState) (b : bool) : UnitState :=
  mkUnit (u_desc s) (u_use_count s) b (u_files s) (u_input_buses s)
         (u_callbacks s).

Definition is_running (u : UnitId) (e : Engine) : bool :=
  match units e !! u with
  | Some s => u_running s
  | None => false
  end.

(** Modelled from the spec: [ofxAudioUnitOutput::start], declared in the
    header and defined elsewhere.  It puts the underlying unit into the
    running state. *)
Definition Output_start (this : ofxAudioUnit) (e : Engine) : option (bool * Engine) :=
  u ← _unit this;
  let e := log_call e (CallOutputStart u) in
  Some (true, with_units e (alter (fun s => set_running s true) u (units e))).

(** Modelled from the spec: [ofxAudioUnitOutput::stop], declared in the
    header and defined elsewhere.  It takes the underlying unit out of the
    running state, and may be repeated. *)
Definition Output_stop (this : ofxAudioUnit) (e : Engine) : option (bool * Engine) :=
  u ← _unit this;
  let e := log_call e (CallOutputStop u) in
  Some (true, with_units e (alter (fun s => set_running s false) u (units e))).

(** Modelled from the spec: [ofxAudioUnit::~ofxAudioUnit], declared in the
    header and defined elsewhere.  The node gives up its unit, which is
    disposed of with its last owner. *)
Definition ofxAudioUnit_dtor (this : ofxAudioUnit) (e : Engine) : Engine :=
  release (_unit this) e.

(** [~ofxAudioUnitOutput(){stop();}], followed by the base destructor. *)
Definition Output_dtor (this : ofxAudioUnit) (e : Engine) : option Engine :=
  '(_, e) ← Output_stop this e;
  Some (ofxAudioUnit_dtor this e).

(** ** [class ofxAudioUnitInput::RingBuffer] *)

(** One buffer per channel, each a run of sample frames kept as raw 32-bit
    words. *)
Definition AudioBufferList : Type := list (list Z).

(** Modelled from the spec: the allocation of one slot, a buffer-list of
    [channels] channels by [samples] sample frames, silent. *)
Definition AudioBufferListNew (channels samples : Z) : AudioBufferList :=
  replicate (Z.to_nat channels) (replicate (Z.to_nat samples) 0).

(** The class derives from a vector of slots and keeps, for each head, a
    64-bit index and an iterator into the vector.  The index is the cursor
    that only grows; the iterator is the slot the cursor stands on, the
    cursor taken modulo the slot count. *)
Record RingBuffer : Type := mkRing {
  slots : list AudioBufferList;
  _readItrIndex : Z;
  _writeItrIndex : Z;
  _readItr : nat;
  _writeItr : nat
}.

(** Modelled from the spec: the constructor, whose defaults the header
    gives as [buffers = 3], [channelsPerBuffer = 2], [samplesPerBuffer =
    512].  It allocates every slot and puts both heads on the first. *)
Definition RingBuffer_ctor (buffers channelsPerBuffer samplesPerBuffer : Z)
    : RingBuffer :=
  mkRing (replicate (Z.to_nat buffers)
                    (AudioBufferListNew channelsPerBuffer samplesPerBuffer))
         0 0 0%nat 0%nat.

(** [RingBuffer()] with the default arguments of the header. *)
Definition RingBuffer_default : RingBuffer := RingBuffer_ctor 3 2 512.

(** Modelled from the spec: [advanceItr], one slot further, back to the
    first slot after the last. *)
Definition advanceItr (rb : RingBuffer) (itr : nat) : nat :=
  if decide (S itr = length (slots rb)) then 0%nat else S itr.

(** [UInt64] increment. *)
Definition incr64 (i : Z) : Z := (i + 1) mod 2 ^ 64.

(** Modelled from the spec: [advanceWriteHead] moves the write cursor one
    slot on, whatever the reader has done. *)
Definition advanceWriteHead (rb : RingBuffer) : RingBuffer :=
  mkRing (slots rb) (_readItrIndex rb) (incr64 (_writeItrIndex rb))
         (_readItr rb) (advanceItr rb (_writeItr rb)).

(** Modelled from the spec: [advanceReadHead] moves the read cursor one
    slot on when it differs from the write cursor, and reports an empty
    buffer, leaving the cursors alone, when it does not. *)
Definition advanceReadHead (rb : RingBuffer) : bool * RingBuffer :=
  if decide (_readItrIndex rb = _writeItrIndex rb) then (false, rb)
  else (true,
        mkRing (slots rb) (incr64 (_readItrIndex rb)) (_writeItrIndex rb)
               (advanceItr rb (_readItr rb)) (_writeItr rb)).

(** [readHead()] and [writeHead()] *)
Definition readHead (rb : RingBuffer) : option AudioBufferList :=
  slots rb !! _readItr rb.
Definition writeHead (rb : RingBuffer) : option AudioBufferList :=
  slots rb !! _writeItr rb.

(** [n] calls of [advanceWriteHead]. *)
Fixpoint writes (n : nat) (rb : RingBuffer) : RingBuffer :=
  match n with
  | O => rb
  | S n => writes n (advanceWriteHead rb)
  end.

(** [n] calls of [advanceReadHead], with what each one returned. *)
Fixpoint reads (n : nat) (rb : RingBuffer) : list bool * RingBuffer :=
  match n with
  | O => ([], rb)
  | S n =>
      let '(ok, rb) := advanceReadHead rb in
      let '(oks, rb) := reads n rb in
      (ok :: oks, rb)
  end.

(** Both iterators point into the vector and both indices are [UInt64]. *)
Definition ring_wf (rb : RingBuffer) : Prop :=
  (_readItr rb < length (slots rb))%nat /\
  (_writeItr rb < length (slots rb))%nat /\
  0 <= _readItrIndex rb < 2 ^ 64 /\
  0 <= _writeItrIndex rb < 2 ^ 64.

(** ** Reading the trace *)

(** The command a channel-voice method packs into its status, for the
    methods that take the channel from the node. *)
Definition command_of (c : SamplerCall) : option Z :=
  match c with
  | DoMidiNoteOn _ _ => Some kMidiMessage_NoteOn
  | DoMidiNoteOff _ _ => Some kMidiMessage_NoteOff
  | DoSetBank _ _ => Some kMidiMessage_ControlChange
  | DoSetProgram _ => Some kMidiMessage_ProgramChange
  | DoSetChannel _ | DoMidiEvent _ _ _ => None
  end.

Definition status_of_call (c : EngineCall) : option (cell Z) :=
  match c with
  | CallMIDIEvent _ status _ _ _ => Some status
  | _ => None
  end.

Definition offset_of_call (c : EngineCall) : option Z :=
  match c with
  | CallMIDIEvent _ _ _ _ offset => Some offset
  | _ => None
  end.

Definition is_instance_new (c : EngineCall) : bool :=
  match c with CallInstanceNew _ _ => true | _ => false end.

(** Every live unit was handed out before [next_unit]. *)
Definition engine_wf (e : Engine) : Prop :=
  map_Forall (fun (u : UnitId) (_ : UnitState) => (u < next_unit e)%nat) (units e).

(** ** Scenes used to run the definitions *)

(** An engine that resolves every descriptor and decodes every file. *)
Definition engine0 : Engine :=
  mkEngine (fun _ => true) (fun _ => true) 0%nat ∅ [] [].

(** The same engine on a machine where no sample file can be read. *)
Definition engine_no_files : Engine :=
  mkEngine (fun _ => true) (fun _ => false) 0%nat ∅ [] [].

(** Storage of an object that is about to be constructed, outside static
    memory: nothing determinate in the scalar member. *)
Definition raw_storage : ofxAudioUnitSampler :=
  mkSampler (mkNode None (mkDesc 0 0 0 0 0)) Indeterminate.

(** Two samplers built one after the other, at addresses 10 and 20. *)
Definition sampler_a : ofxAudioUnitSampler * Engine := Sampler_ctor raw_storage engine0.
Definition sampler_b : ofxAudioUnitSampler * Engine :=
  Sampler_ctor raw_storage (snd sampler_a).
Definition two_samplers : gmap Addr ofxAudioUnitSampler :=
  <[20%nat := fst sampler_b]> (<[10%nat := fst sampler_a]> ∅).

(** The same two objects after each was given a channel of its own. *)
Definition two_samplers_tuned : gmap Addr ofxAudioUnitSampler :=
  <[20%nat := setChannel (fst sampler_b) 7]>
    (<[10%nat := setChannel (fst sampler_a) 2]> ∅).

(** A sampler on the machine without readable files. *)
Definition sampler_c : ofxAudioUnitSampler * Engine :=
  Sampler_ctor raw_storage engine_no_files.

(** A machine on which no component matches, and the sampler built
    there: it has no unit. *)
Definition engine_no_components : Engine :=
  mkEngine (fun _ => false) (fun _ => true) 0%nat ∅ [] [].
Definition sampler_d : ofxAudioUnitSampler * Engine :=
  Sampler_ctor raw_storage engine_no_components.

(** A mixer-like node with two input buses and a source node. *)
Definition scene_units : gmap UnitId UnitState :=
  <[1%nat := mkUnit samplerDesc 1 false [] 2 ∅]>
    (<[0%nat := mkUnit samplerDesc 1 false [] 0 ∅]> ∅).
Definition scene_engine : Engine :=
  mkEngine (fun _ => true) (fun _ => true) 2%nat scene_units [] [].
Definition scene_source : ofxAudioUnit := mkNode (Some 0%nat) samplerDesc.
Definition scene_mixer : ofxAudioUnit := mkNode (Some 1%nat) samplerDesc.

(** An output node that is running. *)
Definition running_engine : Engine :=
  mkEngine (fun _ => true) (fun _ => true) 1%nat
           (<[0%nat := mkUnit samplerDesc 1 true [] 1 ∅]> ∅) [] [].
Definition running_output : ofxAudioUnit := mkNode (Some 0%nat) samplerDesc.

(** ** Further readers and inline members of the header *)


(** [AudioUnitRef getUnit(){return _unit;}]: the caller receives a copy of
    the reference, which is one more owner of the unit. *)
Definition getUnit (this : ofxAudioUnit) (e : Engine) : AudioUnitRef * Engine :=
  (_unit this, retain (_unit this) e).

(** * Properties *)

(** ** Status bytes *)

Lemma channel_enum (c : Z) :
  0 <= c <= 15 -> In c [0; 1; 2; 3; 4; 5; 6; 7; 8; 9; 10; 11; 12; 13; 14; 15].
Proof. simpl. lia. Qed.

Ltac each_channel c H :=
  apply channel_enum in H; simpl in H;
  repeat (destruct H as [<- | H]; [vm_compute; auto | ]); try contradiction.

(** With a channel of four bits the two nibbles of the status do not
    overlap: the command sits above, the channel below. *)
Lemma status_nibbles (k c : Z) :
  In k [kMidiMessage_NoteOff; kMidiMessage_NoteOn;
        kMidiMessage_ControlChange; kMidiMessage_ProgramChange] ->
  0 <= c <= 15 ->
  Z.lor (Z.shiftl k 4) c = 16 * k + c /\
  Z.land (Z.lor (Z.shiftl k 4) c) 15 = c /\
  Z.shiftr (Z.lor (Z.shiftl k 4) c) 4 = k.
Proof.
  intros Hk Hc. simpl in Hk.
  destruct Hk as [<- | [<- | [<- | [<- | []]]]]; each_channel c Hc.
Qed.

Lemma lor_below_pow2 (a b n : Z) :
  0 <= a < 2 ^ n -> 0 <= b < 2 ^ n -> Z.lor a b < 2 ^ n.
Proof.
  intros Ha Hb.
  destruct (Z.eq_dec (Z.lor a b) 0) as [E | E]; [rewrite E; lia|].
  assert (H0 : 0 <= Z.lor a b) by (apply Z.lor_nonneg; lia).
  assert (Hn : 0 < n).
  { destruct (Z_lt_le_dec 0 n) as [|Hle]; [assumption|].
    assert (2 ^ n <= 1).
    { destruct (Z.eq_dec n 0) as [->|]; [simpl; lia|].
      rewrite Z.pow_neg_r by lia. lia. }
    assert (a = 0) by lia. assert (b = 0) by lia. subst. simpl in E.
    contradiction. }
  apply Z.log2_lt_pow2; [lia|].
  rewrite Z.log2_lor by lia.
  apply Z.max_lub_lt.
  - destruct (Z.eq_dec a 0) as [->|]; [simpl; lia|].
    apply Z.log2_lt_pow2; lia.
  - destruct (Z.eq_dec b 0) as [->|]; [simpl; lia|].
    apply Z.log2_lt_pow2; lia.
Qed.

(** The status is computed in [UInt32] without wrap-around, whatever
    [UInt32] the channel holds. *)
Lemma channel_status_UInt32 (k c : Z) :
  In k [kMidiMessage_NoteOff; kMidiMessage_NoteOn;
        kMidiMessage_ControlChange; kMidiMessage_ProgramChange] ->
  is_UInt32 c ->
  is_UInt32 (Z.lor (Z.shiftl k 4) c).
Proof.
  unfold is_UInt32. intros Hk Hc.
  assert (Hs : 0 <= Z.shiftl k 4 < 2 ^ 32).
  { simpl in Hk. destruct Hk as [<- | [<- | [<- | [<- | []]]]];
      vm_compute; split; congruence. }
  split.
  - apply Z.lor_nonneg. lia.
  - apply lor_below_pow2; lia.
Qed.

Lemma command_of_known (op : SamplerCall) (k : Z) :
  command_of op = Some k ->
  In k [kMidiMessage_NoteOff; kMidiMessage_NoteOn;
        kMidiMessage_ControlChange; kMidiMessage_ProgramChange].
Proof.
  destruct op; simpl; intros [= <-]; auto.
Qed.

(** What one channel-voice method hands to the engine: one or two events,
    all to the node's unit, all with the status built from the node's
    channel and a zero sample offset; the node itself is not written. *)
Lemma channel_call_events (op : SamplerCall) (k : Z)
    (this : ofxAudioUnitSampler) (e : Engine) (u : UnitId) :
  _unit (base this) = Some u ->
  command_of op = Some k ->
  exists e' evs,
    call op this e = Some (this, e') /\
    trace e' = trace e ++ evs /\
    evs <> [] /\
    Forall (fun ev =>
              status_of_call ev = Some (channel_status k (midiChannelInUse this)) /\
              offset_of_call ev = Some 0) evs /\
    units e' = units e /\ next_unit e' = next_unit e.
Proof.
  intros Hu Hk.
  destruct op; simpl in Hk; inversion Hk; subst k; clear Hk; simpl;
    unfold midiNoteOn, midiNoteOff, setBank, setProgram; rewrite Hu; simpl.
  - eexists _, [_]. repeat split; auto; discriminate.
  - eexists _, [_]. repeat split; auto; discriminate.
  - eexists _, [_; _]. split; [reflexivity|]. split.
    + unfold MusicDeviceMIDIEvent, log_call; simpl.
      rewrite <- app_assoc. reflexivity.
    + split; [discriminate|]. split; [|split; reflexivity].
      repeat constructor.
  - eexists _, [_]. repeat split; auto; discriminate.
Qed.

Lemma call_total (op : SamplerCall) (this : ofxAudioUnitSampler) (e : Engine)
    (u : UnitId) :
  _unit (base this) = Some u ->
  exists this' e', call op this e = Some (this', e') /\
                   _unit (base this') = Some u /\
                   (is_setChannel op = false ->
                    midiChannelInUse this' = midiChannelInUse this).
Proof.
  intros Hu.
  destruct op; simpl;
    unfold midiNoteOn, midiNoteOff, setBank, setProgram, midiEvent;
    rewrite ?Hu; simpl; eauto.
  eexists _, _. split; [reflexivity|]. split; [exact Hu|]. discriminate.
Qed.

(** A sequence of calls on a node that has a unit runs to its end, and
    leaves the channel alone if none of them is [setChannel]. *)
Lemma calls_total (cs : list SamplerCall) :
  forall (this : ofxAudioUnitSampler) (e : Engine) (u : UnitId),
    _unit (base this) = Some u ->
    exists this' e', calls cs this e = Some (this', e') /\
                     _unit (base this') = Some u /\
                     (Forall (fun c => is_setChannel c = false) cs ->
                      midiChannelInUse this' = midiChannelInUse this).
Proof.
  induction cs as [|c cs IH]; intros this e u Hu; simpl.
  - eauto 10.
  - destruct (call_total c this e u Hu) as (t1 & e1 & Hc & Hu1 & Hch).
    rewrite Hc. simpl.
    destruct (IH t1 e1 u Hu1) as (t2 & e2 & Hcs & Hu2 & Hch2).
    exists t2, e2. repeat split; auto.
    intros HF. inversion HF; subst.
    rewrite Hch2 by assumption. auto.
Qed.

Lemma calls_app (cs1 cs2 : list SamplerCall) :
  forall (this : ofxAudioUnitSampler) (e : Engine),
    calls (cs1 ++ cs2) this e =
    '(this, e) ← calls cs1 this e; calls cs2 this e.
Proof.
  induction cs1 as [|c cs1 IH]; intros this e; simpl.
  - reflexivity.
  - destruct (call c this e) as [[t1 e1]|]; simpl; auto.
Qed.

(** ** MIDI packing *)

(** C3. On a node whose channel is [chan], with [0 <= chan <= 15],
    [midiNoteOn(note, vel)] hands the engine exactly one event for the
    node's unit: status [(0x9 << 4) | chan], data bytes [note] and [vel],
    sample offset zero.  The status is the byte [0x90 + chan], command in
    the high nibble and channel in the low one. *)
Theorem midiNoteOn_forwards (this : ofxAudioUnitSampler) (e : Engine)
    (u : UnitId) (note vel chan : Z) :
  _unit (base this) = Some u ->
  midiChannelInUse this = Determinate chan ->
  0 <= chan <= 15 ->
  midiNoteOn this note vel e =
    Some (log_call e (CallMIDIEvent u
                        (Determinate (Z.lor (Z.shiftl 0x9 4) chan)) note vel 0)) /\
  Z.lor (Z.shiftl 0x9 4) chan = 0x90 + chan /\
  Z.land (Z.lor (Z.shiftl 0x9 4) chan) 15 = chan /\
  Z.shiftr (Z.lor (Z.shiftl 0x9 4) chan) 4 = 0x9 /\
  0 <= Z.lor (Z.shiftl 0x9 4) chan < 256.
Proof.
  intros Hu Hch Hc.
  destruct (status_nibbles kMidiMessage_NoteOn chan) as (H1 & H2 & H3);
    [simpl; auto | exact Hc |].
  unfold midiNoteOn. rewrite Hu, Hch. simpl.
  change kMidiMessage_NoteOn with 9 in *.
  repeat split; auto; rewrite ?H1; lia.
Qed.

(** [midiNoteOn(60, 100)] on channel 3. *)
Lemma midiNoteOn_60_100_channel_3 :
  midiNoteOn (setChannel (fst sampler_a) 3) 60 100 (snd sampler_a) =
    Some (log_call (snd sampler_a)
            (CallMIDIEvent 0%nat (Determinate (Z.lor (Z.shiftl 0x9 4) 3)) 60 100 0)).
Proof.
  apply (midiNoteOn_forwards (setChannel (fst sampler_a) 3) (snd sampler_a)
           0%nat 60 100 3); [reflexivity | reflexivity | lia].
Defined.

(** C4. The channel is state of the node.  Whatever was called before,
    once [setChannel(chan)] has run and as long as no other [setChannel]
    follows, the node's channel is [chan] and each of [midiNoteOn],
    [midiNoteOff], [setBank] and [setProgram] emits events whose status is
    [(command << 4) | chan]; for a channel of four bits that is [chan] in
    the low nibble under the command. *)
Theorem setChannel_persists (history later : list SamplerCall) (chan : Z)
    (this : ofxAudioUnitSampler) (e : Engine) (u : UnitId) :
  _unit (base this) = Some u ->
  Forall (fun c => is_setChannel c = false) later ->
  exists this1 e1,
    calls (history ++ DoSetChannel chan :: later) this e = Some (this1, e1) /\
    midiChannelInUse this1 = Determinate chan /\
    forall op k, command_of op = Some k ->
      exists e2 evs,
        call op this1 e1 = Some (this1, e2) /\
        trace e2 = trace e1 ++ evs /\
        evs <> [] /\
        Forall (fun ev =>
                  status_of_call ev =
                  Some (Determinate (Z.lor (Z.shiftl k 4) chan))) evs /\
        (0 <= chan <= 15 ->
         Z.land (Z.lor (Z.shiftl k 4) chan) 15 = chan /\
         Z.shiftr (Z.lor (Z.shiftl k 4) chan) 4 = k).
Proof.
  intros Hu Hlater.
  destruct (calls_total history this e u Hu) as (t0 & e0 & Hh & Hu0 & _).
  destruct (calls_total later (setChannel t0 chan) e0 u Hu0)
    as (t1 & e1 & Hl & Hu1 & Hch).
  exists t1, e1. split.
  - rewrite calls_app, Hh. simpl. exact Hl.
  - specialize (Hch Hlater). simpl in Hch. split; [exact Hch|].
    intros op k Hk.
    destruct (channel_call_events op k t1 e1 u Hu1 Hk)
      as (e2 & evs & Hc & Ht & Hne & Hall & _).
    exists e2, evs. repeat split; auto.
    + rewrite Hch in Hall. simpl in Hall.
      eapply Forall_impl; [exact Hall|]. simpl. intros ev [H _]. exact H.
    + apply (status_nibbles k chan); auto. eapply command_of_known; eauto.
    + apply (status_nibbles k chan); auto. eapply command_of_known; eauto.
Qed.

(** A run in which the channel is set twice: the later value is the one
    in use afterwards. *)
Lemma setChannel_persists_run :
  exists this1 e1,
    calls ([DoSetChannel 1; DoMidiNoteOn 60 100] ++
           DoSetChannel 5 :: [DoMidiNoteOn 62 90; DoSetProgram 4; DoMidiEvent 176 7 100])
          (fst sampler_a) (snd sampler_a) = Some (this1, e1) /\
    midiChannelInUse this1 = Determinate 5.
Proof.
  destruct (setChannel_persists [DoSetChannel 1; DoMidiNoteOn 60 100]
              [DoMidiNoteOn 62 90; DoSetProgram 4; DoMidiEvent 176 7 100]
              5 (fst sampler_a) (snd sampler_a) 0%nat)
    as (t & e1 & H1 & H2 & _);
    [reflexivity | repeat constructor |].
  exists t, e1. split; assumption.
Defined.

(** ** Construction *)

(** C9. None of the constructors writes [midiChannelInUse]: the member
    keeps what the storage held.  In storage where that is indeterminate,
    each of [midiNoteOn], [midiNoteOff], [setBank] and [setProgram] called
    on the new node emits its events with an indeterminate status. *)
Theorem constructors_leave_channel (storage orig : ofxAudioUnitSampler)
    (type subType manufacturer : Z) (e : Engine) :
  midiChannelInUse (fst (Sampler_ctor storage e)) = midiChannelInUse storage /\
  midiChannelInUse (fst (Sampler_ctor_type storage type subType manufacturer e))
    = midiChannelInUse storage /\
  midiChannelInUse (fst (Sampler_ctor_copy storage orig e))
    = midiChannelInUse storage /\
  (midiChannelInUse storage = Indeterminate ->
   forall this e1,
     In (this, e1) [Sampler_ctor storage e;
                    Sampler_ctor_type storage type subType manufacturer e;
                    Sampler_ctor_copy storage orig e] ->
     forall u op k,
       _unit (base this) = Some u ->
       command_of op = Some k ->
       exists e2 evs,
         call op this e1 = Some (this, e2) /\
         trace e2 = trace e1 ++ evs /\
         evs <> [] /\
         Forall (fun ev => status_of_call ev = Some Indeterminate) evs).
Proof.
  assert (H1 : midiChannelInUse (fst (Sampler_ctor storage e))
               = midiChannelInUse storage).
  { unfold Sampler_ctor. destruct (initUnit _ _). reflexivity. }
  assert (H2 : midiChannelInUse
                 (fst (Sampler_ctor_type storage type subType manufacturer e))
               = midiChannelInUse storage).
  { unfold Sampler_ctor_type. destruct (initUnit _ _). reflexivity. }
  assert (H3 : midiChannelInUse (fst (Sampler_ctor_copy storage orig e))
               = midiChannelInUse storage).
  { unfold Sampler_ctor_copy. destruct (initUnit _ _). reflexivity. }
  repeat split; auto.
  intros Hraw this e1 Hin u op k Hu Hk.
  assert (Hch : midiChannelInUse this = Indeterminate).
  { simpl in Hin. destruct Hin as [Hin | [Hin | [Hin | []]]];
      [rewrite Hin in H1 | rewrite Hin in H2 | rewrite Hin in H3];
      simpl in *; congruence. }
  destruct (channel_call_events op k this e1 u Hu Hk)
    as (e2 & evs & Hc & Ht & Hne & Hall & _).
  exists e2, evs. repeat split; auto.
  rewrite Hch in Hall. simpl in Hall.
  eapply Forall_impl; [exact Hall|]. simpl. intros ev [H _]. exact H.
Qed.

(** A note played on a sampler straight after its construction. *)
Lemma note_before_setChannel :
  midiChannelInUse (fst sampler_a) = Indeterminate /\
  exists e2 evs,
    call (DoMidiNoteOn 60 100) (fst sampler_a) (snd sampler_a)
      = Some (fst sampler_a, e2) /\
    trace e2 = trace (snd sampler_a) ++ evs /\
    evs <> [] /\
    Forall (fun ev => status_of_call ev = Some Indeterminate) evs.
Proof.
  split; [reflexivity|].
  apply (proj2 (proj2 (proj2
           (constructors_leave_channel raw_storage raw_storage 0 0 0 engine0)))
           eq_refl (fst sampler_a) (snd sampler_a) (or_introl eq_refl)
           0%nat (DoMidiNoteOn 60 100) kMidiMessage_NoteOn eq_refl eq_refl).
Defined.

(** ** Copying and assigning *)

(** What assignment between two distinct objects does: the target takes
    the descriptor and the very reference of the source, nothing else of
    the target or of any other object changes, and the engine creates
    nothing. *)
Lemma Sampler_assign_distinct (this orig : Addr)
    (h : gmap Addr ofxAudioUnitSampler) (e : Engine)
    (t o : ofxAudioUnitSampler) :
  this <> orig ->
  h !! this = Some t ->
  h !! orig = Some o ->
  Sampler_assign this orig h e =
    Some (<[this := mkSampler (mkNode (_unit (base o)) (_desc (base o)))
                              (midiChannelInUse t)]> h,
          ofPtr_assign (_unit (base t)) (_unit (base o)) e).
Proof.
  intros Hne Ht Ho. unfold Sampler_assign.
  rewrite Ht, Ho. simpl.
  destruct (decide (this = orig)); [contradiction | reflexivity].
Qed.

(** Assigning an object to itself changes nothing. *)
Lemma Sampler_assign_self (this : Addr) (h : gmap Addr ofxAudioUnitSampler)
    (e : Engine) (t : ofxAudioUnitSampler) :
  h !! this = Some t ->
  Sampler_assign this this h e = Some (h, e).
Proof.
  intros Ht. unfold Sampler_assign. rewrite Ht. simpl.
  destruct (decide (this = this)); [reflexivity | contradiction].
Qed.

Lemma release_next_unit (r : AudioUnitRef) (e : Engine) :
  next_unit (release r e) = next_unit e.
Proof.
  unfold release. destruct r as [u|]; [|reflexivity].
  destruct (units e !! u) as [s|]; [|reflexivity].
  destruct (u_use_count s) as [|[|n]]; reflexivity.
Qed.

Lemma retain_next_unit (r : AudioUnitRef) (e : Engine) :
  next_unit (retain r e) = next_unit e.
Proof. destruct r; reflexivity. Qed.

Lemma release_no_instance (r : AudioUnitRef) (e : Engine) :
  filter (fun c => is_instance_new c = true) (trace (release r e)) =
  filter (fun c => is_instance_new c = true) (trace e).
Proof.
  unfold release. destruct r as [u|]; [|reflexivity].
  destruct (units e !! u) as [s|]; [|reflexivity].
  destruct (u_use_count s) as [|[|n]]; simpl; try reflexivity;
    rewrite filter_app; simpl; apply app_nil_r.
Qed.

(** The reference assignment inside [operator=] never asks the engine for
    a new instance. *)
Lemma ofPtr_assign_creates_nothing (lhs rhs : AudioUnitRef) (e : Engine) :
  next_unit (ofPtr_assign lhs rhs e) = next_unit e /\
  filter (fun c => is_instance_new c = true) (trace (ofPtr_assign lhs rhs e)) =
  filter (fun c => is_instance_new c = true) (trace e).
Proof.
  unfold ofPtr_assign. split.
  - rewrite release_next_unit. apply retain_next_unit.
  - rewrite release_no_instance. destruct rhs; reflexivity.
Qed.

(** The engines the wrapper classes produce stay well-formed. *)
Lemma release_wf (r : AudioUnitRef) (e : Engine) :
  engine_wf e -> engine_wf (release r e).
Proof.
  intros Hwf. unfold release. destruct r as [u|]; [|exact Hwf].
  destruct (units e !! u) as [s|] eqn:E; [|exact Hwf].
  destruct (u_use_count s) as [|[|n]]; unfold engine_wf in *; simpl.
  - apply map_Forall_delete. exact Hwf.
  - apply map_Forall_delete. exact Hwf.
  - apply map_Forall_insert_2; [|exact Hwf]. exact (Hwf _ _ E).
Qed.

Lemma initUnit_wf (this : ofxAudioUnit) (e : Engine) :
  engine_wf e -> engine_wf (snd (initUnit this e)).
Proof.
  intros Hwf. unfold initUnit.
  destruct (resolves e (_desc this)); [|exact Hwf].
  apply (release_wf (_unit this)) in Hwf.
  unfold engine_wf in *. simpl.
  apply map_Forall_insert_2; [lia|].
  eapply map_Forall_impl; [exact Hwf|].
  simpl. intros u _ Hlt. rewrite release_next_unit in Hlt. lia.
Qed.

Lemma engine0_wf : engine_wf engine0.
Proof. unfold engine_wf, engine0. simpl. apply map_Forall_empty. Qed.

Lemma Sampler_ctor_wf (storage : ofxAudioUnitSampler) (e : Engine) :
  engine_wf e -> engine_wf (snd (Sampler_ctor storage e)).
Proof.
  intros Hwf. unfold Sampler_ctor.
  match goal with
  | |- context [initUnit ?b e] =>
      pose proof (initUnit_wf b e Hwf) as H; destruct (initUnit b e)
  end.
  exact H.
Qed.

(** The copy constructor, when the engine resolves the descriptor, does
    instantiate: the new node refers to a unit that did not exist before,
    created from the source's descriptor and owned once. *)
Lemma Sampler_ctor_copy_fresh (storage orig : ofxAudioUnitSampler)
    (e : Engine) (uo : UnitId) :
  engine_wf e ->
  resolves e (_desc (base orig)) = true ->
  _unit (base orig) = Some uo ->
  is_Some (units e !! uo) ->
  let '(this, e') := Sampler_ctor_copy storage orig e in
  _unit (base this) = Some (next_unit e) /\
  _unit (base this) <> _unit (base orig) /\
  _desc (base this) = _desc (base orig) /\
  units e !! next_unit e = None /\
  units e' !! next_unit e =
    Some (mkUnit (_desc (base orig)) 1 false [] initial_input_buses ∅) /\
  trace e' = trace e ++ [CallInstanceNew (next_unit e) (_desc (base orig))].
Proof.
  intros Hwf Hres Hu Hlive.
  unfold Sampler_ctor_copy, initUnit, ofxAudioUnit_ctor. simpl.
  rewrite Hres. simpl.
  assert (Hfresh : units e !! next_unit e = None).
  { destruct (units e !! next_unit e) eqn:E; [|reflexivity].
    apply Hwf in E. lia. }
  repeat split; auto.
  - rewrite Hu. intros [= Heq]. rewrite <- Heq in Hlive.
    rewrite Hfresh in Hlive. destruct Hlive as [? Hx]. discriminate.
  - apply lookup_insert_eq.
Qed.

(** Two samplers are constructed and the second is assigned the first.
    After the assignment both objects hold the reference to unit 0, owned
    twice; the engine has been asked for no new instance, and unit 1, which
    the target owned, has been disposed of. *)
Lemma assignment_shares_unit :
  exists h' e',
    Sampler_assign 20%nat 10%nat two_samplers (snd sampler_b) = Some (h', e') /\
    _unit (base (fst sampler_a)) = Some 0%nat /\
    _unit (base (fst sampler_b)) = Some 1%nat /\
    (_unit ∘ base) <$> h' !! 20%nat = Some (Some 0%nat) /\
    (_unit ∘ base) <$> h' !! 10%nat = Some (Some 0%nat) /\
    u_use_count <$> units e' !! 0%nat = Some 2%nat /\
    next_unit e' = next_unit (snd sampler_b) /\
    trace e' = trace (snd sampler_b) ++ [CallDispose 1%nat].
Proof.
  eexists _, _. split; [vm_compute; reflexivity|].
  vm_compute. repeat split.
Qed.

(** C1, as stated, fails: a sampler assigned to itself ends up with the
    unit it had; no unit is instantiated, the objects and the engine are as
    before. *)
Lemma self_assignment_instantiates_nothing :
  Sampler_assign 10%nat 10%nat two_samplers (snd sampler_b)
    = Some (two_samplers, snd sampler_b) /\
  (_unit ∘ base) <$> two_samplers !! 10%nat = Some (Some 0%nat) /\
  filter (fun c => is_instance_new c = true) (trace (snd sampler_b))
    = [CallInstanceNew 0%nat samplerDesc; CallInstanceNew 1%nat samplerDesc].
Proof.
  repeat split.
Qed.

(** C1, amended.  Copy-construction from a node whose descriptor the
    engine resolves gives the target a unit of its own: newly instantiated
    from the source's descriptor, not in the engine before, owned once, and
    different from the source's unit.  Assigning a node to itself changes
    nothing. *)
Theorem copy_construction_fresh_unit (storage orig : ofxAudioUnitSampler)
    (e : Engine) (uo : UnitId) :
  engine_wf e ->
  resolves e (_desc (base orig)) = true ->
  _unit (base orig) = Some uo ->
  is_Some (units e !! uo) ->
  (exists this e',
     Sampler_ctor_copy storage orig e = (this, e') /\
     _unit (base this) = Some (next_unit e) /\
     _unit (base this) <> _unit (base orig) /\
     _desc (base this) = _desc (base orig) /\
     units e !! next_unit e = None /\
     units e' !! next_unit e =
       Some (mkUnit (_desc (base orig)) 1 false [] initial_input_buses ∅) /\
     units e' !! uo = units e !! uo /\
     trace e' = trace e ++ [CallInstanceNew (next_unit e) (_desc (base orig))]) /\
  (forall (a : Addr) (h : gmap Addr ofxAudioUnitSampler),
     h !! a = Some orig -> Sampler_assign a a h e = Some (h, e)).
Proof.
  intros Hwf Hres Hu Hlive. split.
  - assert (H := Sampler_ctor_copy_fresh storage orig e uo Hwf Hres Hu Hlive).
    destruct (Sampler_ctor_copy storage orig e) as [this e'] eqn:E.
    destruct H as (H1 & H2 & H3 & H4 & H5 & H6).
    exists this, e'. repeat split; auto.
    unfold Sampler_ctor_copy, initUnit, ofxAudioUnit_ctor in E. simpl in E.
    rewrite Hres in E. simpl in E. inversion E; subst. simpl.
    apply lookup_insert_ne. intros Heq. rewrite <- Heq, H4 in Hlive.
    destruct Hlive as [? Hx]. discriminate.
  - intros a h Ha. eapply Sampler_assign_self. exact Ha.
Qed.

(** A copy of the first sampler, constructed after the second. *)
Lemma copy_of_sampler_a :
  exists this e',
    Sampler_ctor_copy raw_storage (fst sampler_a) (snd sampler_b) = (this, e') /\
    _unit (base this) = Some 2%nat /\
    _unit (base this) <> _unit (base (fst sampler_a)).
Proof.
  destruct (copy_construction_fresh_unit raw_storage (fst sampler_a)
              (snd sampler_b) 0%nat)
    as [(this & e' & H1 & H2 & H3 & _) _].
  - unfold engine_wf. apply (bool_decide_unpack _). vm_compute. reflexivity.
  - reflexivity.
  - reflexivity.
  - vm_compute. eauto.
  - exists this, e'. repeat split; assumption.
Defined.

(** C10. Assignment between distinct objects writes the target's
    descriptor and unit reference only: the target keeps its own
    [midiChannelInUse] and every other object is as before.  The copy
    constructor does not read the source's channel either: the new node's
    channel is what its storage held, and two sources that differ in the
    channel alone give the same result. *)
Theorem copies_leave_channel (this orig : Addr)
    (h : gmap Addr ofxAudioUnitSampler) (e : Engine)
    (t o : ofxAudioUnitSampler) :
  this <> orig ->
  h !! this = Some t ->
  h !! orig = Some o ->
  (exists h' e',
     Sampler_assign this orig h e = Some (h', e') /\
     h' !! this = Some (mkSampler (mkNode (_unit (base o)) (_desc (base o)))
                                  (midiChannelInUse t)) /\
     (midiChannelInUse <$> h' !! this) = Some (midiChannelInUse t) /\
     forall a, a <> this -> h' !! a = h !! a) /\
  (forall storage chan,
     midiChannelInUse (fst (Sampler_ctor_copy storage o e))
       = midiChannelInUse storage /\
     Sampler_ctor_copy storage (mkSampler (base o) chan) e
       = Sampler_ctor_copy storage o e).
Proof.
  intros Hne Ht Ho. split.
  - eexists _, _. split; [apply Sampler_assign_distinct; eauto|].
    rewrite lookup_insert_eq. repeat split; auto.
    intros a Ha. apply lookup_insert_ne. congruence.
  - intros storage chan. split; [|reflexivity].
    unfold Sampler_ctor_copy. destruct (initUnit _ _). reflexivity.
Qed.

(** The target had channel 7 and the source channel 2. *)
Lemma copies_leave_channel_7 :
  exists h' e',
    Sampler_assign 20%nat 10%nat two_samplers_tuned (snd sampler_b) = Some (h', e') /\
    (midiChannelInUse <$> h' !! 20%nat) = Some (Determinate 7).
Proof.
  destruct (copies_leave_channel 20%nat 10%nat two_samplers_tuned (snd sampler_b)
              (setChannel (fst sampler_b) 7) (setChannel (fst sampler_a) 2))
    as [(h' & e' & H1 & _ & H3 & _) _];
    [lia | reflexivity | reflexivity |].
  exists h', e'. split; assumption.
Defined.

(** ** Loading samples *)

Lemma load_trace (u : UnitId) (paths : list string) (e : Engine) :
  trace (snd (AudioUnitSetProperty_LoadAudioFiles u paths e)) =
  trace e ++ [CallLoadAudioFiles u paths].
Proof.
  unfold AudioUnitSetProperty_LoadAudioFiles. simpl.
  destruct (forallb (decodes e) paths); reflexivity.
Qed.

Lemma load_failure (u : UnitId) (paths : list string) (e : Engine) :
  forallb (decodes e) paths = false ->
  AudioUnitSetProperty_LoadAudioFiles u paths e =
    (fnfErr, log_call e (CallLoadAudioFiles u paths)).
Proof.
  intros H. unfold AudioUnitSetProperty_LoadAudioFiles. simpl.
  rewrite H. reflexivity.
Qed.

Lemma load_success (u : UnitId) (paths : list string) (e : Engine) :
  forallb (decodes e) paths = true ->
  fst (AudioUnitSetProperty_LoadAudioFiles u paths e) = noErr /\
  diagnostics (snd (AudioUnitSetProperty_LoadAudioFiles u paths e)) = diagnostics e.
Proof.
  intros H. unfold AudioUnitSetProperty_LoadAudioFiles. simpl.
  rewrite H. split; reflexivity.
Qed.

(** C2, as stated, fails: on a machine where the file cannot be read the
    engine refuses the load, and [setSample] still returns [true]. *)
Lemma setSample_true_for_unreadable_file :
  decodes (snd sampler_c) "missing.aif" = false /\
  fst (AudioUnitSetProperty_LoadAudioFiles 0%nat ["missing.aif"%string] (snd sampler_c))
    <> noErr /\
  fst <$> setSample SDK_10_7_or_iOS_5 (fst sampler_c) "missing.aif" (snd sampler_c)
    = Some true.
Proof.
  repeat split; try reflexivity. vm_compute. discriminate.
Qed.

(** The 10.7 body of [setSamples] has no defined outcome, with or without
    a unit. *)
Lemma setSamples_flows_off_the_end (this : ofxAudioUnitSampler)
    (samplePaths : list string) (e : Engine) :
  setSamples SDK_10_7_or_iOS_5 this samplePaths e = None.
Proof.
  unfold setSamples. destruct (_unit (base this)) as [u|]; simpl; [|reflexivity].
  destruct (AudioUnitSetProperty_LoadAudioFiles u samplePaths e). reflexivity.
Qed.

(** C2, amended.  Built against the 10.7 or iOS 5 SDK, [setSample] asks
    the engine to load the file and returns [true] whatever the engine
    answers; a refused load shows only as a printed diagnostic, and leaves
    the engine's units as they were.  Built against the 10.6 SDK
    [setSample] and [setSamples] return [false] and do nothing.
    [setSample] writes no member of the sampler. *)
Theorem setSample_result (this : ofxAudioUnitSampler) (samplePath : string)
    (samplePaths : list string) (e : Engine) (u : UnitId) :
  _unit (base this) = Some u ->
  (exists e',
     setSample SDK_10_7_or_iOS_5 this samplePath e = Some (true, e') /\
     trace e' = trace e ++ [CallLoadAudioFiles u [samplePath]] /\
     (decodes e samplePath = false ->
      units e' = units e /\
      diagnostics e' =
        diagnostics e ++ [("setting ofxAudioUnitSampler's source sample"%string, fnfErr)]) /\
     (decodes e samplePath = true -> diagnostics e' = diagnostics e)) /\
  setSample SDK_10_6 this samplePath e = Some (false, e) /\
  setSamples SDK_10_6 this samplePaths e = Some (false, e).
Proof.
  intros Hu. split; [|split; reflexivity].
  unfold setSample. rewrite Hu. simpl.
  destruct (AudioUnitSetProperty_LoadAudioFiles u [samplePath] e)
    as [s e1] eqn:E.
  eexists. split; [reflexivity|].
  assert (Ht := load_trace u [samplePath] e). rewrite E in Ht. simpl in Ht.
  split; [|split].
  - unfold OFXAU_PRINT. destruct (decide (s = noErr)); simpl; exact Ht.
  - intros Hd. rewrite load_failure in E by (simpl; rewrite Hd; reflexivity).
    inversion E; subst. split; reflexivity.
  - intros Hd.
    destruct (load_success u [samplePath] e) as [Hs Hdiag];
      [simpl; rewrite Hd; reflexivity|].
    rewrite E in Hs, Hdiag. simpl in Hs, Hdiag. subst s. exact Hdiag.
Qed.

(** The unreadable file again: [true], one diagnostic, units untouched. *)
Lemma setSample_result_unreadable :
  exists e',
    setSample SDK_10_7_or_iOS_5 (fst sampler_c) "missing.aif" (snd sampler_c)
      = Some (true, e') /\
    trace e' = trace (snd sampler_c) ++ [CallLoadAudioFiles 0%nat ["missing.aif"%string]].
Proof.
  destruct (setSample_result (fst sampler_c) "missing.aif" [] (snd sampler_c) 0%nat)
    as [(e' & H1 & H2 & _) _]; [reflexivity|].
  exists e'. split; assumption.
Defined.

(** ** Connections *)

(** A connection within the bus range registers the callback on that bus
    of the consumer. *)
Lemma connectTo_in_range (this otherUnit : ofxAudioUnit)
    (destinationBus sourceBus count : Z) (e : Engine) (src : UnitId) :
  _unit this = Some src ->
  getInputBusCount otherUnit e = Some count ->
  0 <= destinationBus < count ->
  destinationBus < 2 ^ 32 ->
  exists e',
    connectTo this otherUnit destinationBus sourceBus e = Some (tt, e') /\
    callback_on otherUnit destinationBus e' = Some (mkSource src sourceBus).
Proof.
  intros Hs Hc Hr Hlt. unfold getInputBusCount in Hc. unfold connectTo, callback_on.
  rewrite Hs. destruct (_unit otherUnit) as [dst|]; [|discriminate].
  simpl in *. destruct (units e !! dst) as [s|] eqn:E; [|discriminate].
  simpl in *. inversion Hc; subst count.
  rewrite Z.mod_small by lia.
  destruct (decide (destinationBus < u_input_buses s)); [|lia].
  eexists. split; [reflexivity|]. simpl.
  rewrite lookup_insert_eq. simpl. apply lookup_insert_eq.
Qed.

(** C5, as stated, fails on the return value: the call that is out of
    range and the call that connects hand the same, only, value back, so
    nothing computed from it tells a failure. *)
Lemma connectTo_returns_nothing :
  getInputBusCount scene_mixer scene_engine = Some 2 /\
  fst <$> connectTo scene_source scene_mixer 5 0 scene_engine = Some tt /\
  fst <$> connectTo scene_source scene_mixer 0 0 scene_engine = Some tt /\
  forall is_failure : unit -> bool,
    is_failure <$> (fst <$> connectTo scene_source scene_mixer 5 0 scene_engine) =
    is_failure <$> (fst <$> connectTo scene_source scene_mixer 0 0 scene_engine).
Proof.
  repeat split.
Qed.

(** C5, amended.  [connectTo] returns nothing.  With a destination bus at
    or above the consumer's current input-bus count it installs no
    callback: the engine, and with it every registered callback, is as
    before. *)
Theorem connectTo_out_of_range (this otherUnit : ofxAudioUnit)
    (destinationBus sourceBus count : Z) (e : Engine) (src : UnitId) :
  _unit this = Some src ->
  getInputBusCount otherUnit e = Some count ->
  0 <= count ->
  count <= destinationBus < 2 ^ 31 ->
  connectTo this otherUnit destinationBus sourceBus e = Some (tt, e) /\
  forall node bus,
    (e' ← snd <$> connectTo this otherUnit destinationBus sourceBus e;
     Some (callback_on node bus e')) = Some (callback_on node bus e).
Proof.
  intros Hs Hc H0 Hr. unfold getInputBusCount in Hc.
  assert (H : connectTo this otherUnit destinationBus sourceBus e = Some (tt, e)).
  { unfold connectTo. rewrite Hs.
    destruct (_unit otherUnit) as [dst|]; [|discriminate].
    simpl in *. destruct (units e !! dst) as [s|]; [|discriminate].
    simpl in *. inversion Hc; subst count.
    rewrite Z.mod_small by lia.
    destruct (decide (destinationBus < u_input_buses s)); [lia | reflexivity]. }
  split; [exact H|]. intros node bus. rewrite H. reflexivity.
Qed.

(** Bus 5 of a mixer with two input buses. *)
Lemma connectTo_bus_5_of_2 :
  connectTo scene_source scene_mixer 5 0 scene_engine = Some (tt, scene_engine).
Proof.
  apply (connectTo_out_of_range scene_source scene_mixer 5 0 2 scene_engine 0%nat);
    [reflexivity | reflexivity | lia | lia].
Defined.

(** ** The ring buffer *)

Section RingBufferFacts.

Variable rb : RingBuffer.
Hypothesis wf : ring_wf rb.

Lemma advanceItr_mod (itr : nat) :
  (itr < length (slots rb))%nat ->
  Z.of_nat (advanceItr rb itr) =
  (Z.of_nat itr + 1) mod Z.of_nat (length (slots rb)).
Proof.
  intros Hlt. unfold advanceItr.
  destruct (decide (S itr = length (slots rb))) as [Heq | Hne].
  - rewrite <- Heq. replace (Z.of_nat itr + 1) with (Z.of_nat (S itr)) by lia.
    rewrite Z.mod_same by lia. reflexivity.
  - rewrite Z.mod_small by lia. lia.
Qed.

Lemma advanceItr_in_range (itr : nat) :
  (itr < length (slots rb))%nat ->
  (advanceItr rb itr < length (slots rb))%nat.
Proof.
  intros Hlt. unfold advanceItr.
  destruct (decide (S itr = length (slots rb))); lia.
Qed.

Lemma incr64_in_range (i : Z) : 0 <= incr64 i < 2 ^ 64.
Proof. unfold incr64. apply Z.mod_pos_bound. lia. Qed.

Lemma advanceWriteHead_wf : ring_wf (advanceWriteHead rb).
Proof.
  destruct wf as (Hr & Hw & Hri & Hwi).
  unfold ring_wf, advanceWriteHead. simpl.
  repeat split; try lia; try apply incr64_in_range.
  apply advanceItr_in_range. exact Hw.
Qed.

Lemma advanceReadHead_wf : ring_wf (snd (advanceReadHead rb)).
Proof.
  destruct wf as (Hr & Hw & Hri & Hwi).
  unfold advanceReadHead.
  destruct (decide (_readItrIndex rb = _writeItrIndex rb)); simpl.
  - exact wf.
  - unfold ring_wf. simpl.
    repeat split; try lia; try apply incr64_in_range.
    apply advanceItr_in_range. exact Hr.
Qed.

End RingBufferFacts.

Lemma incr64_small (i : Z) : 0 <= i -> i + 1 < 2 ^ 64 -> incr64 i = i + 1.
Proof. intros H0 H1. unfold incr64. apply Z.mod_small. lia. Qed.

(** [n] writes move the write cursor [n] on and leave the read cursor. *)
Lemma writes_cursors (n : nat) :
  forall rb : RingBuffer,
    0 <= _writeItrIndex rb ->
    _writeItrIndex rb + Z.of_nat n < 2 ^ 64 ->
    _writeItrIndex (writes n rb) = _writeItrIndex rb + Z.of_nat n /\
    _readItrIndex (writes n rb) = _readItrIndex rb.
Proof.
  induction n as [|n IH]; intros rb H0 Hlt; simpl writes.
  - split; [lia | reflexivity].
  - assert (Hw : _writeItrIndex (advanceWriteHead rb) = _writeItrIndex rb + 1).
    { simpl. apply incr64_small; lia. }
    destruct (IH (advanceWriteHead rb)) as [H1 H2]; [lia | lia |].
    rewrite H1, H2, Hw. simpl. split; [lia | reflexivity].
Qed.

(** With [d] unread slots, [d] reads succeed and the next one fails. *)
Lemma reads_drain (d : nat) :
  forall rb : RingBuffer,
    0 <= _readItrIndex rb ->
    _writeItrIndex rb = _readItrIndex rb + Z.of_nat d ->
    _writeItrIndex rb < 2 ^ 64 ->
    fst (reads (S d) rb) = replicate d true ++ [false].
Proof.
  induction d as [|d IH]; intros rb H0 Hd Hlt.
  - simpl. unfold advanceReadHead.
    destruct (decide (_readItrIndex rb = _writeItrIndex rb)); [reflexivity | lia].
  - change (reads (S (S d)) rb)
      with (let '(ok, rb1) := advanceReadHead rb in
            let '(oks, rb2) := reads (S d) rb1 in (ok :: oks, rb2)).
    unfold advanceReadHead at 1.
    destruct (decide (_readItrIndex rb = _writeItrIndex rb)); [lia|].
    match goal with
    | |- context [reads (S d) ?r] =>
        specialize (IH r); destruct (reads (S d) r) as [oks rb2]
    end.
    simpl in IH. rewrite incr64_small in IH by lia.
    simpl. f_equal. apply IH; lia.
Qed.

(** The constructed buffer is well-formed as soon as it has a slot. *)
Lemma RingBuffer_ctor_wf (buffers channelsPerBuffer samplesPerBuffer : Z) :
  0 < buffers ->
  ring_wf (RingBuffer_ctor buffers channelsPerBuffer samplesPerBuffer).
Proof.
  intros Hb. unfold ring_wf, RingBuffer_ctor. simpl.
  rewrite length_replicate. lia.
Qed.

(** C6. In every state of the ring buffer, [advanceReadHead] succeeds
    exactly when the read cursor differs from the write cursor; it then
    moves the read cursor one slot on, modulo the slot count, and leaves
    the write side; otherwise it fails and the buffer is as before.
    [advanceWriteHead] moves the write cursor one slot on in every state.
    From an empty buffer, after [n] writes the first [n] reads succeed and
    the next read, with no write in between, fails. *)
Theorem ring_buffer_heads (rb : RingBuffer) (n : nat) :
  ring_wf rb ->
  (_readItrIndex rb <> _writeItrIndex rb ->
   exists rb',
     advanceReadHead rb = (true, rb') /\
     _readItrIndex rb' = incr64 (_readItrIndex rb) /\
     Z.of_nat (_readItr rb') =
       (Z.of_nat (_readItr rb) + 1) mod Z.of_nat (length (slots rb)) /\
     _writeItrIndex rb' = _writeItrIndex rb /\
     _writeItr rb' = _writeItr rb /\
     slots rb' = slots rb) /\
  (_readItrIndex rb = _writeItrIndex rb -> advanceReadHead rb = (false, rb)) /\
  (fst (advanceReadHead rb) = true <-> _readItrIndex rb <> _writeItrIndex rb) /\
  (_writeItrIndex (advanceWriteHead rb) = incr64 (_writeItrIndex rb) /\
   Z.of_nat (_writeItr (advanceWriteHead rb)) =
     (Z.of_nat (_writeItr rb) + 1) mod Z.of_nat (length (slots rb)) /\
   _readItrIndex (advanceWriteHead rb) = _readItrIndex rb /\
   _readItr (advanceWriteHead rb) = _readItr rb /\
   slots (advanceWriteHead rb) = slots rb) /\
  (_readItrIndex rb = _writeItrIndex rb ->
   _writeItrIndex rb + Z.of_nat n < 2 ^ 64 ->
   fst (reads (S n) (writes n rb)) = replicate n true ++ [false]).
Proof.
  intros Hwf. pose proof Hwf as (Hr & Hw & Hri & Hwi).
  split; [|split; [|split; [|split]]].
  - intros Hne. unfold advanceReadHead.
    destruct (decide (_readItrIndex rb = _writeItrIndex rb)); [contradiction|].
    eexists. split; [reflexivity|]. simpl.
    repeat split. apply advanceItr_mod. exact Hr.
  - intros Heq. unfold advanceReadHead.
    destruct (decide (_readItrIndex rb = _writeItrIndex rb));
      [reflexivity | contradiction].
  - unfold advanceReadHead.
    destruct (decide (_readItrIndex rb = _writeItrIndex rb)); simpl;
      split; intros; congruence.
  - simpl. repeat split. apply advanceItr_mod. exact Hw.
  - intros Heq Hlt.
    destruct (writes_cursors n rb) as [H1 H2]; [lia | lia |].
    apply reads_drain; rewrite ?H1, ?H2; lia.
Qed.

(** The default ring buffer: three writes, then four reads. *)
Lemma ring_buffer_three_writes :
  fst (reads 4 (writes 3 RingBuffer_default)) = [true; true; true; false].
Proof.
  apply (proj2 (proj2 (proj2 (proj2
           (ring_buffer_heads RingBuffer_default 3
              ltac:(unfold ring_wf; simpl; lia)))))); [reflexivity | simpl; lia].
Defined.

(** C7. The ring buffer built with the default arguments has exactly three
    slots; each holds a buffer-list of two channels, each channel of 512
    sample frames; both heads stand on the first slot. *)
Theorem default_ring_buffer_shape :
  length (slots RingBuffer_default) = 3%nat /\
  Forall (fun bl : AudioBufferList =>
            length bl = 2%nat /\
            Forall (fun ch : list Z => length ch = 512%nat) bl)
         (slots RingBuffer_default) /\
  readHead RingBuffer_default = Some (AudioBufferListNew 2 512) /\
  writeHead RingBuffer_default = Some (AudioBufferListNew 2 512).
Proof.
  split; [reflexivity|]. split; [|split; reflexivity].
  unfold RingBuffer_default, RingBuffer_ctor. cbn [slots].
  apply Forall_replicate. split.
  - unfold AudioBufferListNew. apply length_replicate.
  - unfold AudioBufferListNew. apply Forall_replicate. apply length_replicate.
Qed.

(** ** The output node *)

Lemma release_trace (r : AudioUnitRef) (e : Engine) :
  trace (release r e) = trace e \/
  exists u, r = Some u /\ trace (release r e) = trace e ++ [CallDispose u].
Proof.
  unfold release. destruct r as [u|]; [|left; reflexivity].
  destruct (units e !! u) as [s|]; [|left; reflexivity].
  destruct (u_use_count s) as [|[|n]];
    [right | right | left; reflexivity]; exists u; split; reflexivity.
Qed.

(** Letting go of a reference never puts a unit into the running state. *)
Lemma release_keeps_stopped (r : AudioUnitRef) (e : Engine) (u : UnitId) :
  is_running u e = false -> is_running u (release r e) = false.
Proof.
  intros Hstop. unfold release. destruct r as [v|]; [|exact Hstop].
  destruct (units e !! v) as [s|] eqn:E; [|exact Hstop].
  unfold is_running in *.
  destruct (u_use_count s) as [|[|n]]; simpl.
  - destruct (decide (v = u)) as [->|Hne].
    + rewrite lookup_delete_eq. reflexivity.
    + rewrite lookup_delete_ne by exact Hne. exact Hstop.
  - destruct (decide (v = u)) as [->|Hne].
    + rewrite lookup_delete_eq. reflexivity.
    + rewrite lookup_delete_ne by exact Hne. exact Hstop.
  - destruct (decide (v = u)) as [->|Hne].
    + rewrite lookup_insert_eq. rewrite E in Hstop. exact Hstop.
    + rewrite lookup_insert_ne by exact Hne. exact Hstop.
Qed.

(** C8. Destroying an output node first calls [stop], running or not:
    the stop request is the first thing the engine sees, the unit is out of
    the running state when the node lets go of it, and a disposal, if the
    node was the last owner, comes after the stop. *)
Theorem output_destructor_stops_first (this : ofxAudioUnit) (e : Engine)
    (u : UnitId) :
  _unit this = Some u ->
  exists e1 e2 rest,
    Output_stop this e = Some (true, e1) /\
    is_running u e1 = false /\
    Output_dtor this e = Some e2 /\
    e2 = ofxAudioUnit_dtor this e1 /\
    trace e2 = trace e ++ CallOutputStop u :: rest /\
    (rest = [] \/ rest = [CallDispose u]) /\
    is_running u e2 = false.
Proof.
  intros Hu.
  pose (e1 := with_units (log_call e (CallOutputStop u))
                (alter (fun s => set_running s false) u
                       (units (log_call e (CallOutputStop u))))).
  assert (Hstop : is_running u e1 = false).
  { unfold is_running, e1. simpl. rewrite lookup_alter_eq.
    destruct (units e !! u); reflexivity. }
  assert (Ht1 : trace e1 = trace e ++ [CallOutputStop u]) by reflexivity.
  assert (Hst : Output_stop this e = Some (true, e1)).
  { unfold Output_stop. rewrite Hu. reflexivity. }
  assert (Hd : Output_dtor this e = Some (release (Some u) e1)).
  { unfold Output_dtor. rewrite Hst. simpl.
    unfold ofxAudioUnit_dtor. rewrite Hu. reflexivity. }
  assert (Hbase : release (Some u) e1 = ofxAudioUnit_dtor this e1).
  { unfold ofxAudioUnit_dtor. rewrite Hu. reflexivity. }
  assert (Hend : is_running u (release (Some u) e1) = false).
  { apply release_keeps_stopped. exact Hstop. }
  destruct (release_trace (Some u) e1) as [Hr | (v & Hv & Hr)].
  - exists e1, (release (Some u) e1), [].
    repeat (split; [assumption || (rewrite Hr, Ht1; reflexivity) || (left; reflexivity) |]).
    exact Hend.
  - inversion Hv; subst v.
    exists e1, (release (Some u) e1), [CallDispose u].
    repeat (split; [assumption
                    || (rewrite Hr, Ht1, <- app_assoc; reflexivity)
                    || (right; reflexivity) |]).
    exact Hend.
Qed.

(** An output node destroyed while it is running. *)
Lemma running_output_destroyed :
  is_running 0%nat running_engine = true /\
  exists e1 e2 rest,
    Output_stop running_output running_engine = Some (true, e1) /\
    is_running 0%nat e1 = false /\
    Output_dtor running_output running_engine = Some e2 /\
    e2 = ofxAudioUnit_dtor running_output e1 /\
    trace e2 = trace running_engine ++ CallOutputStop 0%nat :: rest /\
    (rest = [] \/ rest = [CallDispose 0%nat]) /\
    is_running 0%nat e2 = false.
Proof.
  split; [reflexivity|].
  apply (output_destructor_stops_first running_output running_engine 0%nat).
  reflexivity.
Defined.

(** * Further properties of the sampler *)

(** ** Bits of the status *)

Lemma land_shiftl_low (k : Z) : Z.land (Z.shiftl k 4) 15 = 0.
Proof.
  change 15 with (Z.ones 4). rewrite Z.land_ones by lia.
  rewrite Z.shiftl_mul_pow2 by lia. apply Z.mod_mul. lia.
Qed.

(** The expression [command << 4 | chan] for any channel value: the low
    nibble is the channel modulo 16, and what the channel has above its low
    nibble is OR-ed into the command. *)
Lemma status_split (k c : Z) :
  Z.land (Z.lor (Z.shiftl k 4) c) 15 = c mod 16 /\
  Z.shiftr (Z.lor (Z.shiftl k 4) c) 4 = Z.lor k (c / 16).
Proof.
  split.
  - rewrite Z.land_lor_distr_l, land_shiftl_low, Z.lor_0_l.
    change 15 with (Z.ones 4). rewrite Z.land_ones by lia. reflexivity.
  - rewrite Z.shiftr_lor, Z.shiftr_shiftl_l by lia.
    change (4 - 4) with 0. rewrite Z.shiftl_0_r.
    rewrite (Z.shiftr_div_pow2 c 4) by lia. reflexivity.
Qed.

Lemma status_sum (k c : Z) :
  In k [kMidiMessage_NoteOff; kMidiMessage_NoteOn;
        kMidiMessage_ControlChange; kMidiMessage_ProgramChange] ->
  0 <= c <= 15 ->
  Z.lor (Z.shiftl k 4) c = 16 * k + c.
Proof. intros Hk Hc. apply (status_nibbles k c Hk Hc). Qed.

(** ** The other channel-voice methods *)

(** X1. On a node whose channel is [chan], with [0 <= chan <= 15],
    [midiNoteOff(note, vel)] hands the engine exactly one event for the
    node's unit, with status [0x80 + chan], data bytes [note] and [vel] and
    sample offset zero. *)
Theorem midiNoteOff_forwards (this : ofxAudioUnitSampler) (e : Engine)
    (u : UnitId) (note vel chan : Z) :
  _unit (base this) = Some u ->
  midiChannelInUse this = Determinate chan ->
  0 <= chan <= 15 ->
  midiNoteOff this note vel e =
    Some (log_call e (CallMIDIEvent u (Determinate (0x80 + chan)) note vel 0)).
Proof.
  intros Hu Hch Hc. unfold midiNoteOff. rewrite Hu, Hch. simpl.
  rewrite (status_sum kMidiMessage_NoteOff chan) by (simpl; auto).
  reflexivity.
Qed.

Lemma midiNoteOff_60_0_channel_3 :
  midiNoteOff (setChannel (fst sampler_a) 3) 60 0 (snd sampler_a) =
    Some (log_call (snd sampler_a)
            (CallMIDIEvent 0%nat (Determinate (0x80 + 3)) 60 0 0)).
Proof.
  apply (midiNoteOff_forwards (setChannel (fst sampler_a) 3) (snd sampler_a)
           0%nat 60 0 3); [reflexivity | reflexivity | lia].
Defined.

(** X2. [setBank(msb, lsb)] sends two control changes on the node's
    channel, in this order: controller 0 with value [msb], then controller
    32 with value [lsb]; both have status [0xB0 + chan] and sample offset
    zero, and nothing else reaches the engine. *)
Theorem setBank_forwards (this : ofxAudioUnitSampler) (e : Engine)
    (u : UnitId) (msb lsb chan : Z) :
  _unit (base this) = Some u ->
  midiChannelInUse this = Determinate chan ->
  0 <= chan <= 15 ->
  exists e',
    setBank this msb lsb e = Some e' /\
    trace e' = trace e ++
      [CallMIDIEvent u (Determinate (0xB0 + chan)) 0 msb 0;
       CallMIDIEvent u (Determinate (0xB0 + chan)) 32 lsb 0] /\
    units e' = units e /\
    diagnostics e' = diagnostics e.
Proof.
  intros Hu Hch Hc. unfold setBank. rewrite Hu, Hch. simpl.
  rewrite (status_sum kMidiMessage_ControlChange chan) by (simpl; auto).
  eexists. split; [reflexivity|]. simpl.
  rewrite <- app_assoc. repeat split.
Qed.

Lemma setBank_1_2_channel_3 :
  exists e',
    setBank (setChannel (fst sampler_a) 3) 1 2 (snd sampler_a) = Some e' /\
    trace e' = trace (snd sampler_a) ++
      [CallMIDIEvent 0%nat (Determinate (0xB0 + 3)) 0 1 0;
       CallMIDIEvent 0%nat (Determinate (0xB0 + 3)) 32 2 0].
Proof.
  destruct (setBank_forwards (setChannel (fst sampler_a) 3) (snd sampler_a)
              0%nat 1 2 3) as (e' & H1 & H2 & _);
    [reflexivity | reflexivity | lia |].
  exists e'. split; assumption.
Defined.

(** X3. [setProgram(prog)] sends one program change on the node's
    channel: status [0xC0 + chan], first data byte [prog], second data
    byte and sample offset zero. *)
Theorem setProgram_forwards (this : ofxAudioUnitSampler) (e : Engine)
    (u : UnitId) (prog chan : Z) :
  _unit (base this) = Some u ->
  midiChannelInUse this = Determinate chan ->
  0 <= chan <= 15 ->
  setProgram this prog e =
    Some (log_call e (CallMIDIEvent u (Determinate (0xC0 + chan)) prog 0 0)).
Proof.
  intros Hu Hch Hc. unfold setProgram. rewrite Hu, Hch. simpl.
  rewrite (status_sum kMidiMessage_ProgramChange chan) by (simpl; auto).
  reflexivity.
Qed.

Lemma setProgram_5_channel_3 :
  setProgram (setChannel (fst sampler_a) 3) 5 (snd sampler_a) =
    Some (log_call (snd sampler_a)
            (CallMIDIEvent 0%nat (Determinate (0xC0 + 3)) 5 0 0)).
Proof.
  apply (setProgram_forwards (setChannel (fst sampler_a) 3) (snd sampler_a)
           0%nat 5 3); [reflexivity | reflexivity | lia].
Defined.

(** ** The raw event and the channel *)

(** X4. [midiEvent(status, data1, data2)] never reads the node's channel:
    the status goes to the engine as given, with the two data values and a
    zero sample offset, also on a node whose channel was never set, and
    nodes that differ in the channel alone behave alike. *)
Theorem midiEvent_ignores_channel (this : ofxAudioUnitSampler) (e : Engine)
    (u : UnitId) (status data1 data2 : Z) :
  _unit (base this) = Some u ->
  midiEvent this status data1 data2 e =
    Some (log_call e (CallMIDIEvent u (Determinate status) data1 data2 0)) /\
  forall chan,
    midiEvent (mkSampler (base this) chan) status data1 data2 e =
    midiEvent this status data1 data2 e.
Proof.
  intros Hu. unfold midiEvent. simpl. rewrite Hu. split; reflexivity.
Qed.

(** A raw event on a sampler whose channel is still indeterminate. *)
Lemma midiEvent_before_setChannel :
  midiChannelInUse (fst sampler_a) = Indeterminate /\
  midiEvent (fst sampler_a) 0x90 60 100 (snd sampler_a) =
    Some (log_call (snd sampler_a)
            (CallMIDIEvent 0%nat (Determinate 0x90) 60 100 0)).
Proof.
  split; [reflexivity|].
  apply (proj1 (midiEvent_ignores_channel (fst sampler_a) (snd sampler_a)
                  0%nat 0x90 60 100 eq_refl)).
Defined.

(** X5. On a node with a determinate channel the four channel-voice methods
    are the raw [midiEvent] applied to the packed status: one call for
    [midiNoteOn], [midiNoteOff] and [setProgram], two in a row for
    [setBank]; with or without a unit. *)
Theorem methods_as_midiEvent (this : ofxAudioUnitSampler) (e : Engine)
    (chan a b : Z) :
  midiChannelInUse this = Determinate chan ->
  midiNoteOn this a b e =
    midiEvent this (Z.lor (Z.shiftl kMidiMessage_NoteOn 4) chan) a b e /\
  midiNoteOff this a b e =
    midiEvent this (Z.lor (Z.shiftl kMidiMessage_NoteOff 4) chan) a b e /\
  setProgram this a e =
    midiEvent this (Z.lor (Z.shiftl kMidiMessage_ProgramChange 4) chan) a 0 e /\
  setBank this a b e =
    (e1 ← midiEvent this (Z.lor (Z.shiftl kMidiMessage_ControlChange 4) chan)
            kMidiMessage_BankMSBControl a e;
     midiEvent this (Z.lor (Z.shiftl kMidiMessage_ControlChange 4) chan)
       kMidiMessage_BankLSBControl b e1).
Proof.
  intros Hch.
  unfold midiNoteOn, midiNoteOff, setProgram, setBank, midiEvent.
  rewrite Hch. destruct (_unit (base this)); simpl; repeat split.
Qed.

Lemma methods_as_midiEvent_channel_3 :
  midiNoteOn (setChannel (fst sampler_a) 3) 60 100 (snd sampler_a) =
    midiEvent (setChannel (fst sampler_a) 3) 0x93 60 100 (snd sampler_a).
Proof.
  apply (proj1 (methods_as_midiEvent (setChannel (fst sampler_a) 3)
                  (snd sampler_a) 3 60 100 eq_refl)).
Defined.

(** X6. [setChannel] stores any value.  With a channel above 15 the bits
    over its low nibble are OR-ed into the command: the note-on status then
    carries [chan mod 16] as channel and [0x9 | chan / 16] in the place of
    the command. *)
Theorem setChannel_unchecked (this : ofxAudioUnitSampler) (e : Engine)
    (u : UnitId) (note vel chan : Z) :
  _unit (base this) = Some u ->
  exists st,
    midiNoteOn (setChannel this chan) note vel e =
      Some (log_call e (CallMIDIEvent u (Determinate st) note vel 0)) /\
    Z.land st 15 = chan mod 16 /\
    Z.shiftr st 4 = Z.lor kMidiMessage_NoteOn (chan / 16).
Proof.
  intros Hu. unfold midiNoteOn. simpl. rewrite Hu. simpl.
  eexists. split; [reflexivity|]. apply status_split.
Qed.

(** Channel 32: the note-on leaves with the command nibble of a control
    change, on channel 0. *)
Lemma setChannel_32_note_on :
  exists st,
    midiNoteOn (setChannel (fst sampler_a) 32) 60 100 (snd sampler_a) =
      Some (log_call (snd sampler_a)
              (CallMIDIEvent 0%nat (Determinate st) 60 100 0)) /\
    Z.land st 15 = 0 /\
    Z.shiftr st 4 = kMidiMessage_ControlChange.
Proof.
  exact (setChannel_unchecked (fst sampler_a) (snd sampler_a) 0%nat 60 100 32
           eq_refl).
Defined.

(** X7. For channels 0 to 15 the status determines both the command and
    the channel: two packed statuses are equal only when command and
    channel are. *)
Theorem status_decodes (k1 k2 c1 c2 : Z) :
  0 <= c1 <= 15 ->
  0 <= c2 <= 15 ->
  channel_status k1 (Determinate c1) = channel_status k2 (Determinate c2) ->
  k1 = k2 /\ c1 = c2.
Proof.
  intros H1 H2 Heq. simpl in Heq. inversion Heq as [Hst].
  destruct (status_split k1 c1) as [Hl1 Hh1].
  destruct (status_split k2 c2) as [Hl2 Hh2].
  rewrite Hst in Hl1, Hh1.
  rewrite Hl2 in Hl1. rewrite Hh2 in Hh1.
  rewrite !Z.mod_small in Hl1 by lia.
  rewrite !Z.div_small, !Z.lor_0_r in Hh1 by lia.
  split; congruence.
Qed.

Lemma status_decodes_0x93 :
  kMidiMessage_NoteOn = 9 /\ 3 = 3.
Proof.
  apply (status_decodes kMidiMessage_NoteOn 9 3 3); [lia | lia | reflexivity].
Defined.

(** ** Sequences of calls *)




Lemma call_without_unit (op : SamplerCall) (this : ofxAudioUnitSampler)
    (e : Engine) :
  _unit (base this) = None ->
  call op this e =
    if is_setChannel op
    then Some (mkSampler (base this)
                 (match op with DoSetChannel c => Determinate c
                              | _ => midiChannelInUse this end), e)
    else None.
Proof.
  intros Hu.
  destruct op; simpl;
    unfold midiNoteOn, midiNoteOff, setBank, setProgram, midiEvent, setChannel;
    rewrite ?Hu; reflexivity.
Qed.

(** X9. On a node without a unit every method but [setChannel]
    dereferences [_unit] unchecked: a sequence of calls that contains
    anything other than [setChannel] has no defined outcome, while a
    sequence of [setChannel] calls alone runs, touching neither the unit
    reference nor the engine. *)
Theorem calls_on_node_without_unit (cs : list SamplerCall) :
  forall (this : ofxAudioUnitSampler) (e : Engine),
    _unit (base this) = None ->
    (Exists (fun c => is_setChannel c = false) cs -> calls cs this e = None) /\
    (Forall (fun c => is_setChannel c = true) cs ->
     exists this', calls cs this e = Some (this', e) /\ base this' = base this).
Proof.
  induction cs as [|c cs IH]; intros this e Hu; simpl calls.
  - split; [intros HE; inversion HE|]. intros _. exists this. split; reflexivity.
  - rewrite (call_without_unit c this e Hu).
    destruct (is_setChannel c) eqn:Hc; simpl.
    + match goal with
      | |- context [calls cs ?t e] => destruct (IH t e Hu) as [IH1 IH2]
      end.
      split.
      * intros HE. apply IH1. inversion HE; subst; [congruence | assumption].
      * intros HF. inversion HF; subst. apply IH2. assumption.
    + split; [reflexivity|]. intros HF. inversion HF; subst. congruence.
Qed.

(** The sampler built where no component matches: a note has no defined
    outcome, a channel change is fine. *)
Lemma calls_on_sampler_d :
  calls [DoSetChannel 3; DoMidiNoteOn 60 100] (fst sampler_d) (snd sampler_d) = None /\
  exists this',
    calls [DoSetChannel 3; DoSetChannel 4] (fst sampler_d) (snd sampler_d)
      = Some (this', snd sampler_d) /\
    base this' = base (fst sampler_d).
Proof.
  destruct (calls_on_node_without_unit [DoSetChannel 3; DoMidiNoteOn 60 100]
              (fst sampler_d) (snd sampler_d) eq_refl) as [H1 _].
  destruct (calls_on_node_without_unit [DoSetChannel 3; DoSetChannel 4]
              (fst sampler_d) (snd sampler_d) eq_refl) as [_ H2].
  split.
  - apply H1. apply Exists_cons_tl. apply Exists_cons_hd. reflexivity.
  - apply H2. repeat constructor.
Defined.

(** X10. The channel belongs to the moment of the call: when the channel
    is changed between a note-on and its note-off, the note-off leaves on
    the new channel while the note was started on the old one. *)
Theorem channel_changed_between_on_and_off (this : ofxAudioUnitSampler)
    (e : Engine) (u : UnitId) (c1 c2 note vel : Z) :
  _unit (base this) = Some u ->
  0 <= c1 <= 15 ->
  0 <= c2 <= 15 ->
  exists e',
    calls [DoSetChannel c1; DoMidiNoteOn note vel;
           DoSetChannel c2; DoMidiNoteOff note 0] this e
      = Some (setChannel this c2, e') /\
    trace e' = trace e ++
      [CallMIDIEvent u (Determinate (0x90 + c1)) note vel 0;
       CallMIDIEvent u (Determinate (0x80 + c2)) note 0 0].
Proof.
  intros Hu H1 H2. simpl.
  unfold midiNoteOn, midiNoteOff. simpl. repeat (rewrite Hu; simpl).
  rewrite (status_sum kMidiMessage_NoteOn c1) by (simpl; auto).
  rewrite (status_sum kMidiMessage_NoteOff c2) by (simpl; auto).
  eexists. split; [reflexivity|]. simpl.
  rewrite <- app_assoc. reflexivity.
Qed.

Lemma channel_changed_1_to_2 :
  exists e',
    calls [DoSetChannel 1; DoMidiNoteOn 60 100;
           DoSetChannel 2; DoMidiNoteOff 60 0] (fst sampler_a) (snd sampler_a)
      = Some (setChannel (fst sampler_a) 2, e') /\
    trace e' = trace (snd sampler_a) ++
      [CallMIDIEvent 0%nat (Determinate (0x90 + 1)) 60 100 0;
       CallMIDIEvent 0%nat (Determinate (0x80 + 2)) 60 0 0].
Proof.
  apply (channel_changed_between_on_and_off (fst sampler_a) (snd sampler_a)
           0%nat 1 2 60 100); [reflexivity | lia | lia].
Defined.

(** ** After an assignment *)

(** X11. After [t = s] between distinct objects both objects talk to the
    unit of [s]: a note played through either one reaches that unit, the
    target packing its own channel (which the assignment left alone) and
    the source packing its own. *)
Theorem assigned_sampler_plays_on_source_unit (this orig : Addr)
    (h : gmap Addr ofxAudioUnitSampler) (e : Engine)
    (t o : ofxAudioUnitSampler) (uo : UnitId) :
  this <> orig ->
  h !! this = Some t ->
  h !! orig = Some o ->
  _unit (base o) = Some uo ->
  exists h' e' t',
    Sampler_assign this orig h e = Some (h', e') /\
    h' !! this = Some t' /\
    h' !! orig = Some o /\
    forall note vel,
      midiNoteOn t' note vel e' =
        Some (log_call e' (CallMIDIEvent uo
                (channel_status kMidiMessage_NoteOn (midiChannelInUse t))
                note vel 0)) /\
      midiNoteOn o note vel e' =
        Some (log_call e' (CallMIDIEvent uo
                (channel_status kMidiMessage_NoteOn (midiChannelInUse o))
                note vel 0)).
Proof.
  intros Hne Ht Ho Hu.
  eexists _, _, _. split; [apply Sampler_assign_distinct; eauto|].
  split; [apply lookup_insert_eq|].
  split; [rewrite lookup_insert_ne by congruence; exact Ho|].
  intros note vel. unfold midiNoteOn. simpl. rewrite Hu. simpl.
  split; reflexivity.
Qed.

Lemma assigned_sampler_plays_on_unit_0 :
  exists h' e' t',
    Sampler_assign 20%nat 10%nat two_samplers_tuned (snd sampler_b) = Some (h', e') /\
    h' !! 20%nat = Some t' /\
    midiNoteOn t' 60 100 e' =
      Some (log_call e' (CallMIDIEvent 0%nat (Determinate 0x97) 60 100 0)).
Proof.
  destruct (assigned_sampler_plays_on_source_unit 20%nat 10%nat
              two_samplers_tuned (snd sampler_b)
              (setChannel (fst sampler_b) 7) (setChannel (fst sampler_a) 2) 0%nat)
    as (h' & e' & t' & H1 & H2 & _ & H4);
    [lia | reflexivity | reflexivity | reflexivity |].
  exists h', e', t'. split; [exact H1|]. split; [exact H2|].
  exact (proj1 (H4 60 100)).
Defined.

(** X12. Once [t = s] has run, the objects are settled: assigning back,
    [s = t], and assigning again, [t = s], both leave every object as it
    is. *)
Theorem assignment_settles (this orig : Addr)
    (h : gmap Addr ofxAudioUnitSampler) (e : Engine)
    (t o : ofxAudioUnitSampler) :
  this <> orig ->
  h !! this = Some t ->
  h !! orig = Some o ->
  exists h1 e1,
    Sampler_assign this orig h e = Some (h1, e1) /\
    (exists e2, Sampler_assign orig this h1 e1 = Some (h1, e2)) /\
    (exists e3, Sampler_assign this orig h1 e1 = Some (h1, e3)).
Proof.
  intros Hne Ht Ho.
  eexists _, _. split; [apply Sampler_assign_distinct; eauto|].
  set (t1 := mkSampler (mkNode (_unit (base o)) (_desc (base o)))
                       (midiChannelInUse t)).
  assert (H1t : (<[this := t1]> h) !! this = Some t1) by apply lookup_insert_eq.
  assert (H1o : (<[this := t1]> h) !! orig = Some o)
    by (rewrite lookup_insert_ne by congruence; exact Ho).
  split.
  - eexists.
    rewrite (Sampler_assign_distinct orig this _ _ o t1) by auto.
    f_equal. f_equal. simpl.
    apply insert_id. rewrite H1o. f_equal.
    destruct o as [[uo do] co]. reflexivity.
  - eexists.
    rewrite (Sampler_assign_distinct this orig _ _ t1 o) by auto.
    f_equal. f_equal. simpl. apply insert_insert_eq.
Qed.

Lemma assignment_settles_two_samplers :
  exists h1 e1,
    Sampler_assign 20%nat 10%nat two_samplers (snd sampler_b) = Some (h1, e1) /\
    (exists e2, Sampler_assign 10%nat 20%nat h1 e1 = Some (h1, e2)).
Proof.
  destruct (assignment_settles 20%nat 10%nat two_samplers (snd sampler_b)
              (fst sampler_b) (fst sampler_a))
    as (h1 & e1 & H1 & H2 & _); [lia | reflexivity | reflexivity |].
  exists h1, e1. split; assumption.
Defined.

(** ** Handing out the unit *)

(** X13. [getUnit()] returns the node's own reference and makes the caller
    one more owner of the unit.  When either of the two owners then lets
    go, the unit is not disposed of: the engine is exactly as it was before
    [getUnit()]. *)
Theorem getUnit_shares_ownership (this : ofxAudioUnit) (e : Engine)
    (u : UnitId) (s : UnitState) (n : nat) :
  _unit this = Some u ->
  units e !! u = Some s ->
  u_use_count s = S n ->
  fst (getUnit this e) = _unit this /\
  u_use_count <$> units (snd (getUnit this e)) !! u = Some (S (S n)) /\
  release (fst (getUnit this e)) (snd (getUnit this e)) = e /\
  release (_unit this) (snd (getUnit this e)) = e.
Proof.
  intros Hu Hs Hn. unfold getUnit. simpl. rewrite Hu. simpl.
  assert (Hcount : u_use_count <$>
            alter (fun s => set_use_count s (S (u_use_count s))) u (units e) !! u
          = Some (S (S n))).
  { rewrite lookup_alter_eq, Hs. simpl. rewrite Hn. reflexivity. }
  assert (Hrel : release (Some u) (retain (Some u) e) = e).
  { unfold release, retain. simpl. rewrite lookup_alter_eq, Hs. simpl.
    rewrite Hn. destruct e as [res dec nxt us tr dg]. unfold with_units. simpl in *.
    f_equal. apply map_eq. intros i.
    destruct (decide (i = u)) as [->|Hi].
    - rewrite lookup_insert_eq, Hs. f_equal.
      destruct s. simpl in *. subst. reflexivity.
    - rewrite lookup_insert_ne by congruence.
      rewrite lookup_alter_ne by congruence. reflexivity. }
  repeat split; assumption.
Qed.

Lemma getUnit_of_running_output :
  release (fst (getUnit running_output running_engine))
          (snd (getUnit running_output running_engine)) = running_engine.
Proof.
  apply (getUnit_shares_ownership running_output running_engine 0%nat
           (mkUnit samplerDesc 1 true [] 1 ∅) 0%nat); reflexivity.
Defined.
